(** * compress-pdf: the batch orchestrator of [src/compress_pdf/app.py]

    A shallow embedding of the functions that carry the behaviour of the
    program: [find_ghostscript], [list_pdfs], [safe_output_path],
    [compress_pdf], [App._validate], [App.start], [App._worker] and the
    [done] branch of [App._poll_log_queue].

    - A path is the list of its components ([pathlib]'s pure paths).
    - The file system is a finite map from paths to nodes (a regular file
      with its bytes, or a directory).  A file-system call that raises
      [OSError] in Python returns [None] here.
    - Ghostscript is an external process: it is a variable of the section,
      a function from the command line and the file system to an exit
      code, the two captured streams and the new file system ([None] when
      [subprocess.run] itself raises).
    - The stop flag is set by the other thread: the worker reads it through
      an oracle indexed by the job number.
    - The log queue is the list of the events put on it. *)

From Stdlib Require Import ZArith QArith.QArith_base Ascii String.
From stdpp Require Import base option list strings gmap.

Local Open Scope Z_scope.
Local Open Scope string_scope.
Local Open Scope list_scope.

(** ** Strings as Python uses them here *)

Module PyStr.

Definition chars (s : string) : list ascii := list_ascii_of_string s.
Definition of_chars (l : list ascii) : string := string_of_list_ascii l.

(** [str.lower] on the ASCII letters. *)
Definition lower_char (c : ascii) : ascii :=
  let n := nat_of_ascii c in
  if (65 <=? n)%nat && (n <=? 90)%nat then ascii_of_nat (n + 32) else c.

Definition lower (s : string) : string := of_chars (map lower_char (chars s)).

Fixpoint is_suffix_chars (suf l : list ascii) : bool :=
  if bool_decide (l = suf) then true
  else match l with
       | [] => false
       | _ :: l' => is_suffix_chars suf l'
       end.

(** [s.endswith(suf)] *)
Definition endswith (s suf : string) : bool :=
  is_suffix_chars (chars suf) (chars s).

(** [str.isspace] on one character of the Latin-1 range. *)
Definition isspace (c : ascii) : bool :=
  let n := nat_of_ascii c in
  ((9 <=? n)%nat && (n <=? 13)%nat) || ((28 <=? n)%nat && (n <=? 32)%nat)
  || (n =? 133)%nat || (n =? 160)%nat.

Fixpoint lstrip_chars (l : list ascii) : list ascii :=
  match l with
  | c :: l' => if isspace c then lstrip_chars l' else l
  | [] => []
  end.

(** [s.strip()] *)
Definition strip (s : string) : string :=
  of_chars (rev (lstrip_chars (rev (lstrip_chars (chars s))))).

(** [s[:n]] *)
Definition slice_to (n : nat) (s : string) : string :=
  of_chars (take n (chars s)).

Definition len (s : string) : nat := String.length s.

(** [s.rfind(".")] on the characters: the index of the last dot. *)
Fixpoint rfind_dot_from (i : nat) (l : list ascii) (acc : option nat) : option nat :=
  match l with
  | [] => acc
  | c :: l' =>
      rfind_dot_from (S i) l' (if bool_decide (c = "."%char) then Some i else acc)
  end.

Definition rfind_dot (s : string) : option nat := rfind_dot_from 0 (chars s) None.

End PyStr.

(** ** Pure paths *)

Definition Path := list string.

Module PurePath.

(** [p.name]: the last component, empty for the path without components. *)
Definition name (p : Path) : string := List.last p "".

(** [p.parent] *)
Definition parent (p : Path) : Path := removelast p.

(** [p / q] *)
Definition joinpath (p q : Path) : Path := p ++ q.

(** [p.relative_to(root)]: [None] stands for [ValueError]. *)
Fixpoint relative_to (p root : Path) {struct root} : option Path :=
  match root with
  | [] => Some p
  | r :: root' =>
      match p with
      | c :: p' => if bool_decide (c = r) then relative_to p' root' else None
      | [] => None
      end
  end.

(** The [suffix] of a file name: from the last dot on, unless that dot is
    the first or the last character. *)
Definition name_suffix (nm : string) : string :=
  match PyStr.rfind_dot nm with
  | Some i =>
      if (0 <? i)%nat && (i <? PyStr.len nm - 1)%nat
      then PyStr.of_chars (drop i (PyStr.chars nm))
      else ""
  | None => ""
  end.

Definition suffix (p : Path) : string := name_suffix (name p).

Definition name_with_suffix (nm suf : string) : string :=
  let old := name_suffix nm in
  PyStr.of_chars (take (PyStr.len nm - PyStr.len old) (PyStr.chars nm)) +:+ suf.

(** [p.with_suffix(suf)]: [None] stands for the [ValueError] raised on a
    path with an empty name. *)
Definition with_suffix (p : Path) (suf : string) : option Path :=
  if bool_decide (name p = "") then None
  else Some (parent p ++ [name_with_suffix (name p) suf]).

End PurePath.

(** ** The file system *)

Inductive node :=
  | File (content : list Byte.byte)
  | Dir.

Definition FS := gmap Path node.

Module Fs.

(** The path without components is the current directory: it is always
    there. *)
Definition lookup_node (fs : FS) (p : Path) : option node :=
  match p with
  | [] => Some Dir
  | _ => fs !! p
  end.

(** [p.exists()] *)
Definition exists_ (fs : FS) (p : Path) : bool :=
  match lookup_node fs p with Some _ => true | None => false end.

(** [p.is_file()] *)
Definition is_file (fs : FS) (p : Path) : bool :=
  match lookup_node fs p with Some (File _) => true | _ => false end.

(** [p.is_dir()] *)
Definition is_dir (fs : FS) (p : Path) : bool :=
  match lookup_node fs p with Some Dir => true | _ => false end.

(** [fs'] is [fs] with more directories: what was there is there, and
    every file was there. *)
Definition grows_by_dirs (fs fs' : FS) : Prop :=
  (forall q n, lookup_node fs q = Some n -> lookup_node fs' q = Some n)
  /\ (forall q c, lookup_node fs' q = Some (File c) -> lookup_node fs q = Some (File c)).

Section Ops.

(** What [st_size] is for a directory is left to the platform. *)
Variable dir_st_size : Z.

(** [p.stat().st_size] *)
Definition st_size (fs : FS) (p : Path) : option Z :=
  match lookup_node fs p with
  | Some (File c) => Some (Z.of_nat (length c))
  | Some Dir => Some dir_st_size
  | None => None
  end.

(** [p.unlink()]: removes a file, raises on a directory and on a
    missing path. *)
Definition unlink (fs : FS) (p : Path) : option FS :=
  match lookup_node fs p with
  | Some (File _) => Some (delete p fs)
  | _ => None
  end.

(** One step of [mkdir(parents=True, exist_ok=True)]: the directory [q]
    is kept when it is there, made when nothing is, and a file in its
    place raises. *)
Definition mkdir_one (ofs : option FS) (q : Path) : option FS :=
  match ofs with
  | Some fs =>
      match lookup_node fs q with
      | Some Dir => Some fs
      | Some (File _) => None
      | None => Some (<[q := Dir]> fs)
      end
  | None => None
  end.

(** The non-empty prefixes of a path, shortest first. *)
Fixpoint prefixes_from (base p : Path) : list Path :=
  match p with
  | [] => []
  | c :: p' => (base ++ [c]) :: prefixes_from (base ++ [c]) p'
  end.

Definition prefixes (p : Path) : list Path := prefixes_from [] p.

(** [p.mkdir(parents=True, exist_ok=True)] *)
Definition mkdir_parents (fs : FS) (p : Path) : option FS :=
  foldl mkdir_one (Some fs) (prefixes p).

(** [shutil.copy2(src, dst)] for a destination that is not a directory:
    the source must be a file, the destination another path whose
    parent is a directory. *)
Definition copy_file (fs : FS) (src dst : Path) : option FS :=
  match lookup_node fs src with
  | Some (File c) =>
      if bool_decide (src = dst) then None
      else if is_dir fs (PurePath.parent dst) then
        match lookup_node fs dst with
        | Some Dir => None
        | _ => Some (<[dst := File c]> fs)
        end
      else None
  | _ => None
  end.

(** [shutil.copy2(src, dst)]: a destination that is a directory
    receives the file under the source's name. *)
Definition copy2 (fs : FS) (src dst : Path) : option FS :=
  if is_dir fs dst then copy_file fs src (dst ++ [PurePath.name src])
  else copy_file fs src dst.

(** [src.rename(dst)] as the worker uses it, on a destination it has
    just removed: the source must exist, the destination must not
    (Windows raises [FileExistsError] there), and the parent of the
    destination must be a directory. *)
Definition rename (fs : FS) (src dst : Path) : option FS :=
  match src, lookup_node fs src with
  | _ :: _, Some n =>
      if exists_ fs dst then None
      else if is_dir fs (PurePath.parent dst) then Some (<[dst := n]> (delete src fs))
      else None
  | _, _ => None
  end.

End Ops.

End Fs.

(** ** The log queue *)

(** The text of a log line is kept as its parts: the formatting of the
    sizes in megabytes is presentation. *)
Inductive message :=
  | MsgSkip (name : string)
  | MsgCopy (rel : Path) (out_tmp_size in_size : Z)
  | MsgOk (rel : Path) (in_size out_size : Z)
  | MsgFailWrite (name : string)
  | MsgFailGs (name : string) (rc : Z)
  | MsgStderr (excerpt : string).

Inductive event :=
  | EvLog (m : message)
  | EvProgress (i : nat)
  | EvDone (ok skipped failed total : nat) (total_saved total_in : Z).

(** ** Presets *)

Definition PDF_PRESETS : list (string * string) :=
  [ ("Very light (/screen)", "/screen");
    ("Light (/ebook)", "/ebook");
    ("Balanced (/printer)", "/printer");
    ("High quality (/prepress)", "/prepress");
    ("Default (/default)", "/default") ].

(** [dict(pairs)]: a later pair overrides an earlier one with its key. *)
Definition dict (pairs : list (string * string)) : gmap string string :=
  foldl (fun m kv => <[kv.1 := kv.2]> m) ∅ pairs.

Definition preset_map : gmap string string := dict PDF_PRESETS.

(** [self.preset_map.get(choice, "/ebook")] in [App.start]. *)
Definition preset_value (choice : string) : string :=
  default "/ebook" (preset_map !! choice).

(** ** The orchestrator *)

Module Orchestrator.

Record wstate := WState {
  ok : nat;
  skipped : nat;
  failed : nat;
  total_in_bytes : Z;
  total_out_bytes : Z;
  fsys : FS;
  log_q : list event;
  calls : list (list string)   (* the command lines run so far *)
}.

Inductive promotion :=
  | Copied (in_size out_tmp_size : Z)
  | Renamed (in_size out_size : Z).

Section Run.

Variable dir_st_size : Z.
(** [str(path)] *)
Variable path_str : Path -> string.
(** [subprocess.run(cmd, capture_output=True, text=True)]: the exit
    code, the two streams and the file system the process leaves. *)
Variable subprocess_run : list string -> FS -> option (Z * string * string * FS).
(** [self.stop_flag.is_set()] when job [i] is about to start. *)
Variable stop_flag : nat -> bool.
(** [self.overwrite.get()] when job [i] reads it. *)
Variable overwrite : nat -> bool.

Definition st_size := Fs.st_size dir_st_size.


(** [safe_output_path]: keeps the subfolder structure and makes the
    parent directories. *)
Definition safe_output_path (fs : FS) (output_root input_root pdf_path : Path)
  : option (Path * FS) :=
  match PurePath.relative_to pdf_path input_root with
  | None => None
  | Some rel =>
      let out_path := PurePath.joinpath output_root rel in
      match Fs.mkdir_parents fs (PurePath.parent out_path) with
      | None => None
      | Some fs' => Some (out_path, fs')
      end
  end.

Definition compress_cmd (gs_exe : string) (in_pdf out_pdf : Path) (pdf_setting : string)
  : list string :=
  [ gs_exe;
    "-sDEVICE=pdfwrite";
    "-dCompatibilityLevel=1.4";
    "-dPDFSETTINGS=" +:+ pdf_setting;
    "-dNOPAUSE";
    "-dQUIET";
    "-dBATCH";
    "-sOutputFile=" +:+ path_str out_pdf;
    path_str in_pdf ].

Definition compress_pdf (gs_exe : string) (in_pdf out_pdf : Path) (pdf_setting : string)
    (fs : FS) : option (Z * string * string * FS) :=
  subprocess_run (compress_cmd gs_exe in_pdf out_pdf pdf_setting) fs.

(** [if p.exists(): try: p.unlink() except Exception: pass] *)
Definition unlink_quietly (fs : FS) (p : Path) : FS :=
  if Fs.exists_ fs p then default fs (Fs.unlink fs p) else fs.

(** [if p.exists(): p.unlink()] *)
Definition unlink_if_exists (fs : FS) (p : Path) : option FS :=
  if Fs.exists_ fs p then Fs.unlink fs p else Some fs.

(** The body of the [try] of a job whose invocation succeeded.  It
    returns the file system and the input total where it stopped, and
    the promotion it made; [None] in the last place is an exception. *)
Definition try_promote (fs : FS) (total_in : Z) (pdf out_pdf tmp_out : Path)
  : FS * Z * option promotion :=
  match st_size fs pdf with
  | None => (fs, total_in, None)
  | Some in_size =>
      match st_size fs tmp_out with
      | None => (fs, total_in, None)
      | Some out_tmp_size =>
          let total_in := total_in + in_size in
          if (out_tmp_size >=? in_size) && (in_size >? 0) then
            match unlink_if_exists fs out_pdf with
            | None => (fs, total_in, None)
            | Some fs1 =>
                match Fs.copy2 fs1 pdf out_pdf with
                | None => (fs1, total_in, None)
                | Some fs2 =>
                    match Fs.unlink fs2 tmp_out with
                    | None => (fs2, total_in, None)
                    | Some fs3 => (fs3, total_in, Some (Copied in_size out_tmp_size))
                    end
                end
            end
          else
            match unlink_if_exists fs out_pdf with
            | None => (fs, total_in, None)
            | Some fs1 =>
                match Fs.rename fs1 tmp_out out_pdf with
                | None => (fs1, total_in, None)
                | Some fs2 =>
                    match st_size fs2 out_pdf with
                    | None => (fs2, total_in, None)
                    | Some out_size => (fs2, total_in, Some (Renamed in_size out_size))
                    end
                end
            end
      end
  end.

(** [rc == 0 and tmp_out.exists() and tmp_out.stat().st_size > 0] *)
Definition invocation_ok (rc : Z) (fs : FS) (tmp_out : Path) : bool :=
  (rc =? 0)%Z && Fs.exists_ fs tmp_out
  && match st_size fs tmp_out with Some n => n >? 0 | None => false end.

(** The lines logged by the [else] branch: the second one only when
    there is text on the error stream. *)
Definition gs_failure_log (name : string) (rc : Z) (err : string) : list event :=
  EvLog (MsgFailGs name rc)
  :: (if bool_decide (err = "") then []
      else [EvLog (MsgStderr (PyStr.slice_to 500 (PyStr.strip err)))]).

Section Job.

Variables (in_root out_dir : Path) (gs preset : string).

(** One turn of the loop of [_worker] after the stop check, for the
    [i]-th file.  [None] is an exception that nothing catches: it
    ends the worker thread. *)
Definition job (i : nat) (pdf : Path) (st : wstate) : option wstate :=
  match safe_output_path (fsys st) out_dir in_root pdf with
  | None => None
  | Some (out_pdf, fs1) =>
      if Fs.exists_ fs1 out_pdf && negb (overwrite i) then
        Some (WState (ok st) (S (skipped st)) (failed st)
                (total_in_bytes st) (total_out_bytes st) fs1
                (log_q st ++ [EvProgress i; EvLog (MsgSkip (PurePath.name pdf))])
                (calls st))
      else
        match PurePath.with_suffix out_pdf ".tmp.pdf" with
        | None => None
        | Some tmp_out =>
            let fs2 := unlink_quietly fs1 tmp_out in
            match compress_pdf gs pdf tmp_out preset fs2 with
            | None => None
            | Some (rc, _, err, fs3) =>
                let calls' := calls st ++ [compress_cmd gs pdf tmp_out preset] in
                if invocation_ok rc fs3 tmp_out then
                  match try_promote fs3 (total_in_bytes st) pdf out_pdf tmp_out with
                  | (fs4, total_in, Some (Copied in_size out_tmp_size)) =>
                      Some (WState (S (ok st)) (skipped st) (failed st)
                              total_in (total_out_bytes st + in_size) fs4
                              (log_q st
                               ++ [EvLog (MsgCopy (default [] (PurePath.relative_to pdf in_root))
                                            out_tmp_size in_size);
                                   EvProgress i])
                              calls')
                  | (fs4, total_in, Some (Renamed in_size out_size)) =>
                      Some (WState (S (ok st)) (skipped st) (failed st)
                              total_in (total_out_bytes st + out_size) fs4
                              (log_q st
                               ++ [EvLog (MsgOk (default [] (PurePath.relative_to pdf in_root))
                                            in_size out_size);
                                   EvProgress i])
                              calls')
                  | (fs4, total_in, None) =>
                      Some (WState (ok st) (skipped st) (S (failed st))
                              total_in (total_out_bytes st)
                              (unlink_quietly fs4 tmp_out)
                              (log_q st
                               ++ [EvLog (MsgFailWrite (PurePath.name pdf)); EvProgress i])
                              calls')
                  end
                else
                  Some (WState (ok st) (skipped st) (S (failed st))
                          (total_in_bytes st) (total_out_bytes st)
                          (unlink_quietly fs3 tmp_out)
                          (log_q st ++ gs_failure_log (PurePath.name pdf) rc err
                           ++ [EvProgress i])
                          calls')
            end
        end
  end.

(** The [for] loop of [_worker] from the [i]-th file on.  It returns
    the state it ends in and the files that [break] left untouched. *)
Fixpoint worker_loop (i : nat) (pdfs : list Path) (st : wstate)
  : option (wstate * list Path) :=
  match pdfs with
  | [] => Some (st, [])
  | pdf :: rest =>
      if stop_flag i then Some (st, pdfs)
      else
        match job i pdf st with
        | None => None
        | Some st' => worker_loop (S i) rest st'
        end
  end.

Definition total_saved (st : wstate) : Z :=
  Z.max (total_in_bytes st - total_out_bytes st) 0.

Definition done_event (total : nat) (st : wstate) : event :=
  EvDone (ok st) (skipped st) (failed st) total (total_saved st) (total_in_bytes st).

Definition init (fs : FS) : wstate := WState 0 0 0 0 0 fs [] [].

(** [_worker]: the state when the thread ends, with the summary on
    the queue, and the files that were not reached. *)
Definition worker (pdfs : list Path) (fs : FS) : option (wstate * list Path) :=
  match worker_loop 1 pdfs (init fs) with
  | None => None
  | Some (st, untouched) =>
      Some (WState (ok st) (skipped st) (failed st)
              (total_in_bytes st) (total_out_bytes st) (fsys st)
              (log_q st ++ [done_event (length pdfs) st])
              (calls st),
            untouched)
  end.

End Job.

End Run.





(** The quality setting on a command line of [compress_pdf]. *)
Definition uses_preset (preset : string) (cmd : list string) : Prop :=
  cmd !! 3%nat = Some ("-dPDFSETTINGS=" +:+ preset).

(** The log lines that record the outcome of a file: one of skipped,
    copied, compressed, and the two kinds of failure. *)
Definition is_outcome (e : event) : bool :=
  match e with
  | EvLog (MsgSkip _) | EvLog (MsgCopy _ _ _) | EvLog (MsgOk _ _ _)
  | EvLog (MsgFailWrite _) | EvLog (MsgFailGs _ _) => true
  | _ => false
  end.

Definition outcomes (q : list event) : nat :=
  length (filter (fun e => is_outcome e = true) q).

(** The report of the [done] branch of [_poll_log_queue]: the four
    counters, and the saving with its share of the input, or nothing
    when no input byte was counted.  The share is the exact quotient;
    the program prints its floating-point value. *)
Inductive report :=
  | Report (ok skipped failed total : nat) (space_saved : option (Z * Q)).

Definition poll_done (e : event) : option report :=
  match e with
  | EvDone ok skipped failed total saved total_in =>
      Some (Report ok skipped failed total
              (if total_in >? 0 then Some (saved, Qmake saved (Z.to_pos total_in))
               else None))
  | _ => None
  end.

End Orchestrator.

(** ** Validation of a run *)

Definition GS_CANDIDATES : list string := ["gswin64c"; "gswin64c.exe"; "gs"; "gs.exe"].

Module Validation.

Section Validate.

(** [shutil.which] *)
Variable which : string -> option string.
(** [Path(text)] *)
Variable path_of_str : string -> Path.
(** [Path.resolve()] on the file system of the run. *)
Variable resolve : Path -> Path.

(** [find_ghostscript]: the first candidate that [which] finds. *)
Fixpoint find_in (names : list string) : option string :=
  match names with
  | [] => None
  | name :: names' =>
      match which name with
      | Some p => if bool_decide (p = "") then find_in names' else Some p
      | None => find_in names'
      end
  end.

Definition find_ghostscript : option string := find_in GS_CANDIDATES.

(** What [_validate] hands to [start]. *)
Record validated := Validated {
  v_in_path : Path;
  v_out_dir : Path;
  v_gs : string;
  v_is_file : bool
}.

(** [comp_target = in_path if not is_file else in_path.parent] *)
Definition comp_target (in_path : Path) (is_file : bool) : Path :=
  if negb is_file then in_path else PurePath.parent in_path.

(** The [try] block of [_validate]: an exception of [mkdir] is passed
    over, after [out_dir] has been assigned. *)
Definition avoid_input_output (fs : FS) (in_path out_dir : Path) (is_file : bool)
  : Path * FS :=
  let target := comp_target in_path is_file in
  if bool_decide (resolve target = resolve out_dir) then
    let out_dir' := PurePath.joinpath target ["_compressed"] in
    (out_dir', default fs (Fs.mkdir_parents fs out_dir'))
  else (out_dir, fs).

(** [_validate] on the three entries of the form.  [None] is a refused
    run (an error box was shown). *)
Definition validate (fs : FS) (input_text output_text gs_text : string)
  : option (validated * FS) :=
  let in_path := path_of_str (PyStr.strip input_text) in
  let out_dir := path_of_str (PyStr.strip output_text) in
  let gs := PyStr.strip gs_text in
  if negb (Fs.exists_ fs in_path) then None
  else
    let is_file := Fs.is_file fs in_path in
    if is_file && negb (bool_decide (PyStr.lower (PurePath.suffix in_path) = ".pdf")) then None
    else if negb is_file && negb (Fs.is_dir fs in_path) then None
    else if negb (Fs.is_dir fs out_dir) then None
    else
      let ogs :=
        if bool_decide (gs = "") || negb (Fs.exists_ fs (path_of_str gs))
        then find_ghostscript
        else Some gs in
      match ogs with
      | None => None
      | Some gs =>
          let '(out_dir, fs') := avoid_input_output fs in_path out_dir is_file in
          Some (Validated in_path out_dir gs is_file, fs')
      end.

(** The input root that [start] gives to the worker. *)
Definition worker_in_root (v : validated) : Path :=
  if v_is_file v then PurePath.parent (v_in_path v) else v_in_path v.

End Validate.

End Validation.

(** ** The enumeration of the files *)

Module Enumerator.

(** A snapshot of a directory tree: the entries of a directory in the
    order in which the system lists them. *)
#[local] Unset Elimination Schemes.
Inductive tree :=
  | TFile
  | TDir (entries : list (string * tree)).
#[local] Set Elimination Schemes.

Definition is_tdir (t : tree) : bool :=
  match t with TDir _ => true | TFile => false end.

Definition dirnames (es : list (string * tree)) : list string :=
  map fst (filter (fun e => is_tdir e.2 = true) es).

Definition filenames (es : list (string * tree)) : list string :=
  map fst (filter (fun e => is_tdir e.2 = false) es).

(** [os.walk(top)], top down: the triple of a directory, then the walks
    of its subdirectories in their order.  A top that is no directory
    gives nothing. *)
Fixpoint walk (top : Path) (t : tree) : list (Path * list string * list string) :=
  match t with
  | TFile => []
  | TDir es =>
      (top, dirnames es, filenames es)
      :: (fix walk_entries (l : list (string * tree)) :=
            match l with
            | [] => []
            | (d, sub) :: l' => walk (top ++ [d]) sub ++ walk_entries l'
            end) es
  end.

Definition is_pdf_name (fn : string) : bool :=
  PyStr.endswith (PyStr.lower fn) ".pdf".

Definition has_pdf_suffix (fn : string) : bool :=
  bool_decide (PyStr.lower (PurePath.name_suffix fn) = ".pdf").

(** [list_pdfs(input_dir, recursive)], the generator run to its end.
    [None] is the exception of [iterdir] on a path that is no
    directory. *)
Definition list_pdfs (input_dir : Path) (t : tree) (recursive : bool)
  : option (list Path) :=
  if recursive then
    Some (flat_map
            (fun '(root, _, files) =>
               map (fun fn => root ++ [fn]) (filter (fun fn => is_pdf_name fn = true) files))
            (walk input_dir t))
  else
    match t with
    | TFile => None
    | TDir es =>
        Some (map (fun fn => input_dir ++ [fn])
                (filter (fun fn => has_pdf_suffix fn = true) (filenames es)))
    end.

(** In the words of the specification: [rel] leads from the directory
    [t] to a file beneath it. *)
Inductive file_beneath : tree -> Path -> Prop :=
  | fb_here es fn :
      (fn, TFile) ∈ es -> file_beneath (TDir es) [fn]
  | fb_below es d sub rel :
      (d, sub) ∈ es -> file_beneath sub rel -> file_beneath (TDir es) (d :: rel).

(** A name ends in [ext] up to the case of its letters. *)
Definition ends_with_nocase (fn ext : string) : Prop :=
  exists pre suf, fn = pre +:+ suf /\ PyStr.lower suf = PyStr.lower ext.

(** A snapshot as a file system gives it: no two entries of a directory
    have the same name. *)
#[local] Unset Elimination Schemes.
Inductive unique_names : tree -> Prop :=
  | un_file : unique_names TFile
  | un_dir es :
      NoDup (map fst es) ->
      Forall (fun e => unique_names e.2) es ->
      unique_names (TDir es).
#[local] Set Elimination Schemes.

End Enumerator.


(** ** The start of a run *)

Module Start.

Import Validation Enumerator.

(** What [start] hands to the worker thread. *)
Record launch := Launch {
  l_in_root : Path;
  l_out_dir : Path;
  l_gs : string;
  l_pdfs : list Path;
  l_preset : string
}.

Inductive outcome :=
  | Busy                      (* a worker is alive: nothing happens *)
  | Refused                   (* [_validate] showed an error box *)
  | Raised                    (* the enumeration raised *)
  | NoPdf                     (* "No PDF found in the selected folder." *)
  | Started (l : launch) (fs : FS).

(** A file as the worker expects it: beneath the input root, with a name
    that ends in ".pdf" up to case. *)
Definition launched_file (in_root p : Path) : Prop :=
  exists rel, rel <> [] /\ p = in_root ++ rel
              /\ PurePath.name p <> ""
              /\ ends_with_nocase (PurePath.name p) ".pdf".

Section Start.

Variable which : string -> option string.
Variable path_of_str : string -> Path.
Variable resolve : Path -> Path.

(** [App.start], up to the creation of the thread.  [alive] is
    [self.worker_thread.is_alive()], [listing] is the input folder as
    [os.walk] and [iterdir] see it, and the last four arguments are the
    form: the three entries, the subfolder box and the preset box. *)
Definition start (alive : bool) (fs : FS) (listing : tree)
    (input_text output_text gs_text : string) (recursive : bool) (choice : string)
  : outcome :=
  if alive then Busy
  else
    match validate which path_of_str resolve fs input_text output_text gs_text with
    | None => Refused
    | Some (v, fs') =>
        let pdfs :=
          if v_is_file v then Some [v_in_path v]
          else list_pdfs (v_in_path v) listing recursive in
        match pdfs with
        | None => Raised
        | Some [] => NoPdf
        | Some pdfs =>
            Started (Launch (worker_in_root v) (v_out_dir v) (v_gs v) pdfs
                       (preset_value choice))
                    fs'
        end
    end.

End Start.

End Start.


(** ** Reading the queue *)

Module Trace.

(** The values that the progress bar takes, in order. *)
Definition progress_values (q : list event) : list nat :=
  omap (fun e => match e with EvProgress i => Some i | _ => None end) q.

Definition is_done (e : event) : bool :=
  match e with EvDone _ _ _ _ _ _ => true | _ => false end.

(** The summaries on the queue. *)
Definition summaries (q : list event) : list event :=
  filter (fun e => is_done e = true) q.

(** [cmd] is the command of one of the files [pdfs]: Ghostscript on the
    file itself, writing to the temporary path of its mapped output. *)
Definition command_of (path_str : Path -> string) (in_root out_dir : Path)
    (gs preset : string) (pdfs : list Path) (cmd : list string) : Prop :=
  exists pdf rel tmp_out,
    pdf ∈ pdfs /\ pdf = in_root ++ rel
    /\ PurePath.with_suffix (out_dir ++ rel) ".tmp.pdf" = Some tmp_out
    /\ cmd = Orchestrator.compress_cmd path_str gs pdf tmp_out preset.

(** The external tool leaves the path [q] as it finds it. *)
Definition tool_keeps
    (subprocess_run : list string -> FS -> option (Z * string * string * FS))
    (q : Path) : Prop :=
  forall cmd fs rc out err fs',
    subprocess_run cmd fs = Some (rc, out, err, fs') ->
    Fs.lookup_node fs' q = Fs.lookup_node fs q.

End Trace.

(** ** Concrete runs *)

Module Scenario.
Import Orchestrator.

Definition bytes (n : nat) : list Byte.byte := replicate n Byte.x00.

(** [str(path)] on a POSIX system. *)
Fixpoint posix_str (p : Path) : string :=
  match p with
  | [] => "."
  | [c] => c
  | c :: p' => c +:+ "/" +:+ posix_str p'
  end.

Definition in_root : Path := ["in"].
Definition out_dir : Path := ["out"].
Definition a_pdf : Path := ["in"; "a.pdf"].
Definition b_pdf : Path := ["in"; "b.pdf"].
Definition out_a : Path := ["out"; "a.pdf"].
Definition tmp_a : Path := ["out"; "a.tmp.pdf"].
Definition tmp_b : Path := ["out"; "b.tmp.pdf"].

(** An input folder with one file of five bytes and an empty output
    folder. *)
Definition fs_fresh : FS :=
  <[a_pdf := File (bytes 5)]> (<[in_root := Dir]> (<[out_dir := Dir]> ∅)).

(** The same with a second input file of four bytes. *)
Definition fs_two : FS := <[b_pdf := File (bytes 4)]> fs_fresh.

(** The same as [fs_fresh] with an output already there. *)
Definition fs_done : FS := <[out_a := File (bytes 3)]> fs_fresh.

(** The same as [fs_fresh] with a folder where the output goes. *)
Definition fs_blocked : FS := <[out_a := Dir]> fs_fresh.

(** A Ghostscript that writes [n] bytes to the temporary path of
    [a.pdf] and ends with code [rc]. *)
Definition gs_writes (n : nat) (rc : Z) (err : string)
  : list string -> FS -> option (Z * string * string * FS) :=
  fun _ fs => Some (rc, "", err, <[tmp_a := File (bytes n)]> fs).

(** A Ghostscript that fails and writes nothing. *)
Definition gs_fails (rc : Z) (err : string)
  : list string -> FS -> option (Z * string * string * FS) :=
  fun _ fs => Some (rc, "", err, fs).

(** A Ghostscript that writes [n] bytes to the path that follows
    [-sOutputFile=], for the two files of [fs_two]. *)
Definition gs_any (n : nat) : list string -> FS -> option (Z * string * string * FS) :=
  fun cmd fs =>
    match cmd !! 7%nat with
    | Some arg =>
        if bool_decide (arg = "-sOutputFile=out/a.tmp.pdf")
        then Some (0, "", "", <[tmp_a := File (bytes n)]> fs)
        else if bool_decide (arg = "-sOutputFile=out/b.tmp.pdf")
        then Some (0, "", "", <[tmp_b := File (bytes n)]> fs)
        else Some (1, "", "no such file", fs)
    | None => Some (1, "", "usage", fs)
    end.

Definition never : nat -> bool := fun _ => false.
Definition always : nat -> bool := fun _ => true.

(** The flag is set while the [k]-th file is processed. *)
Definition stop_during (k : nat) : nat -> bool := fun i => (k <? i)%nat.

(** The form's text as a path of one component, and a system without
    links, where a path resolves to itself. *)
Definition one_component (s : string) : Path :=
  if bool_decide (s = "") then [] else [s].

Definition no_which : string -> option string := fun _ => None.

Definition resolve_self : Path -> Path := fun p => p.

(** [fs_fresh] with a Ghostscript executable next to the folders. *)
Definition fs_gs : FS := <[ ["gs"] := File (bytes 1) ]> fs_fresh.



(** The input folder as the system lists it: a file, and a subfolder with
    a file whose suffix is in capitals. *)
Definition listing_two : Enumerator.tree :=
  Enumerator.TDir
    [ ("a.pdf", Enumerator.TFile);
      ("sub", Enumerator.TDir [("b.PDF", Enumerator.TFile)]) ].

(** A single file next to an output folder and a Ghostscript. *)
Definition fs_single : FS :=
  <[ ["a.pdf"] := File (bytes 5) ]>
    (<[ ["out"] := Dir ]> (<[ ["gs"] := File (bytes 1) ]> ∅)).

(** [which] on a system with Ghostscript under its Unix name only. *)
Definition which_gs : string -> option string :=
  fun name => if bool_decide (name = "gs") then Some "/usr/bin/gs" else None.

(** Equality of nodes is decidable, so that runs can be compared by
    evaluation. *)
#[export] Instance byte_eq_dec : EqDecision Byte.byte := Byte.byte_eq_dec.

#[export] Instance node_eq_dec : EqDecision node.
Proof. solve_decision. Defined.

#[export] Instance validated_eq_dec : EqDecision Validation.validated.
Proof. solve_decision. Defined.

#[export] Instance launch_eq_dec : EqDecision Start.launch.
Proof. solve_decision. Defined.

#[export] Instance outcome_eq_dec : EqDecision Start.outcome.
Proof. solve_decision. Defined.

End Scenario.

(** * Properties *)

(** ** Pure paths *)

Module PurePathFacts.
Import PurePath.

Lemma relative_to_Some p root rel :
  relative_to p root = Some rel <-> p = root ++ rel.
Proof.
  revert p; induction root as [|r root IH]; intros p; simpl.
  - split; [intros [= ->]; reflexivity | intros ->; reflexivity].
  - destruct p as [|c p]; [split; [discriminate | intros [=]]|].
    case_bool_decide as Hc.
    + subst c. rewrite IH. split; [intros ->; reflexivity | intros [= ->]; reflexivity].
    + split; [discriminate | intros [= -> _]; contradiction].
Qed.

Lemma relative_to_app root rel : relative_to (root ++ rel) root = Some rel.
Proof. apply relative_to_Some; reflexivity. Qed.

Lemma parent_snoc (p : Path) c : parent (p ++ [c]) = p.
Proof. apply removelast_last. Qed.

Lemma name_snoc (p : Path) c : name (p ++ [c]) = c.
Proof. apply last_last. Qed.

Lemma parent_name (p : Path) : p <> [] -> p = parent p ++ [name p].
Proof. intros Hp. apply app_removelast_last, Hp. Qed.

Lemma parent_length (p : Path) : length (parent p) = pred (length p).
Proof.
  destruct (decide (p = [])) as [->|Hp]; [reflexivity|].
  rewrite (parent_name p Hp) at 2. rewrite length_app; simpl. lia.
Qed.

Lemma parent_app (p q : Path) : q <> [] -> parent (p ++ q) = p ++ parent q.
Proof. intros Hq. apply removelast_app, Hq. Qed.

Lemma with_suffix_Some p suf q :
  with_suffix p suf = Some q ->
  p <> [] /\ q = parent p ++ [name_with_suffix (name p) suf].
Proof.
  unfold with_suffix. case_bool_decide as Hn; [discriminate|].
  intros [= <-]. split; [|reflexivity]. intros ->. apply Hn. reflexivity.
Qed.

Lemma with_suffix_length p suf q :
  with_suffix p suf = Some q -> length q = length p.
Proof.
  intros H. apply with_suffix_Some in H as [Hp ->].
  rewrite length_app, parent_length. simpl. destruct p; [contradiction|simpl; lia].
Qed.

Lemma with_suffix_parent p suf q :
  with_suffix p suf = Some q -> parent q = parent p.
Proof. intros H. apply with_suffix_Some in H as [Hp ->]. apply parent_snoc. Qed.

End PurePathFacts.

(** ** Strings *)

Module PyStrFacts.
Import PyStr.

Lemma of_chars_chars s : of_chars (chars s) = s.
Proof. apply string_of_list_ascii_of_string. Qed.

Lemma chars_of_chars l : chars (of_chars l) = l.
Proof. apply list_ascii_of_string_of_list_ascii. Qed.

Lemma chars_inj s1 s2 : chars s1 = chars s2 -> s1 = s2.
Proof. intros H. rewrite <- (of_chars_chars s1), H. apply of_chars_chars. Qed.

Lemma chars_app s1 s2 : chars (s1 +:+ s2) = chars s1 ++ chars s2.
Proof. induction s1 as [|c s1 IH]; simpl; [reflexivity | f_equal; exact IH]. Qed.

Lemma of_chars_app l1 l2 : of_chars (l1 ++ l2) = of_chars l1 +:+ of_chars l2.
Proof. apply chars_inj. rewrite chars_app, !chars_of_chars. reflexivity. Qed.

Lemma len_chars s : len s = length (chars s).
Proof. induction s as [|c s IH]; simpl; [reflexivity | f_equal; exact IH]. Qed.

Lemma lower_chars s : chars (lower s) = map lower_char (chars s).
Proof. apply chars_of_chars. Qed.

Lemma lower_app s1 s2 : lower (s1 +:+ s2) = lower s1 +:+ lower s2.
Proof.
  apply chars_inj. rewrite chars_app, !lower_chars, chars_app. apply map_app.
Qed.

Lemma len_lower s : len (lower s) = len s.
Proof. rewrite !len_chars, lower_chars. apply length_map. Qed.

(** [endswith] is what its name says. *)
Lemma is_suffix_chars_spec suf l :
  is_suffix_chars suf l = true <-> exists pre, l = pre ++ suf.
Proof.
  induction l as [|c l IH]; simpl.
  - case_bool_decide as H.
    + split; [intros _; exists []; subst; reflexivity | reflexivity].
    + split; [discriminate|]. intros [pre Hpre]. exfalso. apply H.
      symmetry in Hpre. apply app_eq_nil in Hpre as [_ ->]. reflexivity.
  - case_bool_decide as H.
    + split; [intros _; exists []; subst; reflexivity | reflexivity].
    + rewrite IH. split.
      * intros [pre ->]. exists (c :: pre). reflexivity.
      * intros [pre Hpre]. destruct pre as [|c' pre]; simpl in Hpre.
        -- contradiction.
        -- injection Hpre as _ ->. exists pre. reflexivity.
Qed.

Lemma endswith_spec s suf :
  endswith s suf = true <-> exists pre, s = pre +:+ suf.
Proof.
  unfold endswith. rewrite is_suffix_chars_spec. split.
  - intros [pre H]. exists (of_chars pre). apply chars_inj.
    rewrite chars_app, chars_of_chars. exact H.
  - intros [pre ->]. exists (chars pre). apply chars_app.
Qed.

(** The index that [rfind_dot] gives is the one of the last dot. *)
Lemma rfind_dot_from_spec l : forall i acc,
  (rfind_dot_from i l acc = acc /\ Forall (fun c => c <> "."%char) l)
  \/ (exists k, rfind_dot_from i l acc = Some (i + k)%nat
                /\ l !! k = Some "."%char
                /\ Forall (fun c => c <> "."%char) (drop (S k) l)).
Proof.
  induction l as [|c l IH]; intros i acc; simpl.
  - left. split; [reflexivity | constructor].
  - case_bool_decide as Hc.
    + destruct (IH (S i) (Some i)) as [[-> Hall] | (k & -> & Hk & Hall)].
      * right. exists 0%nat. rewrite Nat.add_0_r. subst c. simpl. auto.
      * right. exists (S k). replace (i + S k)%nat with (S i + k)%nat by lia. auto.
    + destruct (IH (S i) acc) as [[-> Hall] | (k & -> & Hk & Hall)].
      * left. split; [reflexivity | constructor; assumption].
      * right. exists (S k). replace (i + S k)%nat with (S i + k)%nat by lia. auto.
Qed.

Lemma rfind_dot_Some s i :
  rfind_dot s = Some i ->
  chars s !! i = Some "."%char /\ Forall (fun c => c <> "."%char) (drop (S i) (chars s)).
Proof.
  unfold rfind_dot. intros H.
  destruct (rfind_dot_from_spec (chars s) 0 None) as [[H0 _] | (k & Hk & ? & ?)].
  - congruence.
  - rewrite H in Hk. injection Hk as ->. auto.
Qed.

Lemma slice_to_len n s : (len (slice_to n s) <= n)%nat.
Proof.
  unfold slice_to. rewrite len_chars, chars_of_chars, length_take. lia.
Qed.

End PyStrFacts.

(** ** The temporary path is never the output path *)

Module TmpPath.
Import PurePath PyStrFacts PurePathFacts.

Lemma name_with_suffix_tmp_ne nm : name_with_suffix nm ".tmp.pdf" <> nm.
Proof.
  unfold name_with_suffix. intros Heq.
  apply (f_equal PyStr.chars) in Heq.
  rewrite chars_app, chars_of_chars in Heq.
  set (l := PyStr.chars nm) in *.
  set (k := (PyStr.len nm - PyStr.len (name_suffix nm))%nat) in *.
  rewrite <- (take_drop k l) in Heq at 2.
  apply app_inv_head in Heq.
  unfold name_suffix in k.
  destruct (PyStr.rfind_dot nm) as [i|] eqn:Hr.
  - destruct ((0 <? i)%nat && (i <? PyStr.len nm - 1)%nat) eqn:Hc.
    + apply andb_true_iff in Hc as [_ Hi]. apply Nat.ltb_lt in Hi.
      apply rfind_dot_Some in Hr as [_ Hall]. fold l in Hall.
      assert (Hk : k = i).
      { subst k. rewrite (len_chars (PyStr.of_chars _)), chars_of_chars, length_drop.
        rewrite len_chars in *. fold l in Hi |- *. lia. }
      rewrite Hk in Heq.
      replace (drop (S i) l) with (drop 1 (drop i l)) in Hall
        by (rewrite drop_drop; f_equal; lia).
      rewrite <- Heq in Hall.
      simpl in Hall. rewrite !Forall_cons in Hall.
      destruct Hall as (_ & _ & _ & Hdot & _). apply Hdot. reflexivity.
    + subst k. simpl in Heq. rewrite Nat.sub_0_r, len_chars in Heq. fold l in Heq.
      rewrite drop_all in Heq. discriminate.
  - subst k. simpl in Heq. rewrite Nat.sub_0_r, len_chars in Heq. fold l in Heq.
    rewrite drop_all in Heq. discriminate.
Qed.

Lemma with_suffix_tmp_ne out tmp :
  with_suffix out ".tmp.pdf" = Some tmp -> tmp <> out.
Proof.
  intros H Heq. apply with_suffix_Some in H as [Hout Htmp]. subst tmp.
  rewrite (parent_name out Hout) in Heq at 3.
  apply app_inv_head in Heq. injection Heq as Heq.
  revert Heq. apply name_with_suffix_tmp_ne.
Qed.

End TmpPath.

(** ** The file system *)

Module FsFacts.
Import Fs.

Lemma lookup_node_insert (fs : FS) p n q :
  p <> [] ->
  lookup_node (<[p := n]> fs) q = if decide (p = q) then Some n else lookup_node fs q.
Proof.
  intros Hp. destruct q as [|c q]; simpl.
  - destruct (decide (p = [])); [contradiction | reflexivity].
  - apply lookup_insert.
Qed.

Lemma lookup_node_delete (fs : FS) p q :
  p <> [] ->
  lookup_node (delete p fs) q = if decide (p = q) then None else lookup_node fs q.
Proof.
  intros Hp. destruct q as [|c q]; simpl.
  - destruct (decide (p = [])); [contradiction | reflexivity].
  - apply lookup_delete.
Qed.

Lemma lookup_node_None (fs : FS) p : lookup_node fs p = None -> p <> [].
Proof. intros H ->. discriminate. Qed.

Lemma lookup_node_File (fs : FS) p c : lookup_node fs p = Some (File c) -> p <> [].
Proof. intros H ->. discriminate. Qed.

Lemma unlink_Some (fs fs' : FS) p :
  unlink fs p = Some fs' ->
  p <> [] /\ fs' = delete p fs /\ exists c, lookup_node fs p = Some (File c).
Proof.
  unfold unlink. destruct (lookup_node fs p) as [[c|]|] eqn:H; try discriminate.
  intros [= <-]. split; [eapply lookup_node_File; eassumption|].
  split; [reflexivity | exists c; reflexivity].
Qed.

Lemma unlink_file (fs : FS) p c :
  lookup_node fs p = Some (File c) -> unlink fs p = Some (delete p fs).
Proof. unfold unlink. intros ->. reflexivity. Qed.

Lemma exists_true (fs : FS) p : exists_ fs p = true <-> is_Some (lookup_node fs p).
Proof.
  unfold exists_. destruct (lookup_node fs p); split; intros H;
    try reflexivity; try discriminate; eauto. destruct H; discriminate.
Qed.

Lemma exists_false (fs : FS) p : exists_ fs p = false <-> lookup_node fs p = None.
Proof.
  unfold exists_. destruct (lookup_node fs p); split; intros H;
    try reflexivity; discriminate.
Qed.

Lemma is_dir_true (fs : FS) p : is_dir fs p = true <-> lookup_node fs p = Some Dir.
Proof.
  unfold is_dir. destruct (lookup_node fs p) as [[c|]|]; split; intros H;
    try reflexivity; discriminate.
Qed.

Lemma is_file_true (fs : FS) p :
  is_file fs p = true <-> exists c, lookup_node fs p = Some (File c).
Proof.
  unfold is_file. destruct (lookup_node fs p) as [[c|]|]; split; intros H;
    try reflexivity; try discriminate; eauto; destruct H; discriminate.
Qed.

(** *** [mkdir] makes directories and nothing else *)

Lemma grows_by_dirs_refl fs : grows_by_dirs fs fs.
Proof. split; auto. Qed.

Lemma grows_by_dirs_trans fs1 fs2 fs3 :
  grows_by_dirs fs1 fs2 -> grows_by_dirs fs2 fs3 -> grows_by_dirs fs1 fs3.
Proof. intros [A1 B1] [A2 B2]. split; eauto. Qed.

Lemma mkdir_one_Some fs q fs' :
  mkdir_one (Some fs) q = Some fs' ->
  grows_by_dirs fs fs' /\ lookup_node fs' q = Some Dir.
Proof.
  simpl. destruct (lookup_node fs q) as [[c|]|] eqn:Hq; try discriminate.
  - intros [= <-]. split; [apply grows_by_dirs_refl | exact Hq].
  - intros [= <-]. pose proof (lookup_node_None _ _ Hq) as Hne. split.
    + split; intros p n; rewrite lookup_node_insert by exact Hne;
        case_decide; intros Hl; congruence.
    + rewrite lookup_node_insert by exact Hne.
      case_decide; [reflexivity | contradiction].
Qed.

Lemma foldl_mkdir_one_None qs : foldl mkdir_one None qs = None.
Proof. induction qs; simpl; auto. Qed.

Lemma foldl_mkdir_one_Some qs : forall fs fs',
  foldl mkdir_one (Some fs) qs = Some fs' ->
  grows_by_dirs fs fs' /\ Forall (fun q => lookup_node fs' q = Some Dir) qs.
Proof.
  induction qs as [|q qs IH]; intros fs fs'; cbn [foldl].
  - intros [= <-]. split; [apply grows_by_dirs_refl | constructor].
  - destruct (mkdir_one (Some fs) q) as [fs1|] eqn:H1;
      [|rewrite foldl_mkdir_one_None; discriminate].
    intros H. apply IH in H as [G2 Hall]. apply mkdir_one_Some in H1 as [G1 Hq].
    split; [eapply grows_by_dirs_trans; eassumption|].
    constructor; [apply G2, Hq | exact Hall].
Qed.

Lemma prefixes_from_last base p :
  p <> [] -> List.last (prefixes_from base p) [] = base ++ p.
Proof.
  revert base. induction p as [|c p IH]; intros base Hp; [contradiction|].
  destruct p as [|c' p]; [reflexivity|].
  specialize (IH (base ++ [c]) ltac:(discriminate)).
  rewrite <- app_assoc in IH. simpl in IH |- *. exact IH.
Qed.

Lemma last_elem_of {A} (l : list A) d : l <> [] -> List.last l d ∈ l.
Proof.
  induction l as [|a l IH]; intros Hl; [contradiction|].
  destruct l as [|b l]; [left|]. right. apply IH. discriminate.
Qed.

Lemma mkdir_parents_Some fs p fs' :
  mkdir_parents fs p = Some fs' ->
  grows_by_dirs fs fs' /\ is_dir fs' p = true.
Proof.
  unfold mkdir_parents. intros H. apply foldl_mkdir_one_Some in H as [G Hall].
  split; [exact G|]. apply is_dir_true.
  destruct (decide (p = [])) as [->|Hp]; [reflexivity|].
  rewrite Forall_forall in Hall. apply Hall.
  unfold prefixes. rewrite <- (prefixes_from_last [] p Hp) at 1.
  apply last_elem_of. destruct p; [contradiction | discriminate].
Qed.

End FsFacts.

(** ** The orchestrator *)

Module OrchestratorFacts.
Import Orchestrator PurePathFacts FsFacts.

Section Run.

Variable dir_st_size : Z.
Variable path_str : Path -> string.
Variable subprocess_run : list string -> FS -> option (Z * string * string * FS).
Variable stop_flag : nat -> bool.
Variable overwrite : nat -> bool.
Variables (in_root out_dir : Path) (gs preset : string).

#[local] Abbreviation job := (job dir_st_size path_str subprocess_run overwrite in_root out_dir gs preset).
#[local] Abbreviation worker_loop :=
  (worker_loop dir_st_size path_str subprocess_run stop_flag overwrite
     in_root out_dir gs preset).
#[local] Abbreviation worker :=
  (worker dir_st_size path_str subprocess_run stop_flag overwrite
     in_root out_dir gs preset).
#[local] Abbreviation compress_pdf := (compress_pdf path_str subprocess_run).
#[local] Abbreviation compress_cmd := (compress_cmd path_str).
#[local] Abbreviation try_promote := (try_promote dir_st_size).
#[local] Abbreviation invocation_ok := (invocation_ok dir_st_size).
#[local] Abbreviation st_size := (st_size dir_st_size).

Lemma safe_output_path_Some fs o r pdf out fs1 :
  safe_output_path fs o r pdf = Some (out, fs1) ->
  exists rel, pdf = r ++ rel /\ out = o ++ rel
              /\ Fs.mkdir_parents fs (PurePath.parent out) = Some fs1.
Proof.
  unfold safe_output_path.
  destruct (PurePath.relative_to pdf r) as [rel|] eqn:Hrel; [|discriminate].
  destruct (Fs.mkdir_parents _ _) as [fs'|] eqn:Hmk; [|discriminate].
  intros [= <- <-]. exists rel. apply relative_to_Some in Hrel. auto.
Qed.

Lemma safe_output_path_grows fs o r pdf out fs1 :
  safe_output_path fs o r pdf = Some (out, fs1) ->
  Fs.grows_by_dirs fs fs1 /\ Fs.is_dir fs1 (PurePath.parent out) = true.
Proof.
  intros H. apply safe_output_path_Some in H as (rel & _ & _ & Hmk).
  apply mkdir_parents_Some in Hmk. exact Hmk.
Qed.

(** C3.  A file whose mapped output path exists while overwriting is
    off is skipped: the job ends with the skipped counter one higher,
    the other counters and the byte totals as they were, the skip
    logged, no command run, and no file made or removed (so no
    temporary file either). *)
Theorem skip_rule i pdf st out_pdf fs1 :
  safe_output_path (fsys st) out_dir in_root pdf = Some (out_pdf, fs1) ->
  Fs.exists_ fs1 out_pdf = true ->
  overwrite i = false ->
  exists st',
    job i pdf st = Some st'
    /\ skipped st' = S (skipped st)
    /\ ok st' = ok st /\ failed st' = failed st
    /\ total_in_bytes st' = total_in_bytes st
    /\ total_out_bytes st' = total_out_bytes st
    /\ log_q st' = log_q st ++ [EvProgress i; EvLog (MsgSkip (PurePath.name pdf))]
    /\ calls st' = calls st
    /\ (forall q c, Fs.lookup_node (fsys st') q = Some (File c)
                    <-> Fs.lookup_node (fsys st) q = Some (File c)).
Proof.
  intros Hsafe Hex Hov. unfold Orchestrator.job. rewrite Hsafe, Hex, Hov. simpl.
  eexists. split; [reflexivity|]. simpl. repeat split; try reflexivity.
  - apply safe_output_path_grows in Hsafe as [[_ G] _]. apply G.
  - apply safe_output_path_grows in Hsafe as [[G _] _]. apply G.
Qed.

Lemma invocation_ok_false rc fs tmp_out :
  rc <> 0 \/ Fs.exists_ fs tmp_out = false \/ st_size fs tmp_out = Some 0 ->
  invocation_ok rc fs tmp_out = false.
Proof.
  unfold Orchestrator.invocation_ok. intros [Hrc | [Hex | Hsz]].
  - apply Z.eqb_neq in Hrc. rewrite Hrc. reflexivity.
  - rewrite Hex. apply andb_false_iff. left. apply andb_false_r.
  - rewrite Hsz. apply andb_false_r.
Qed.

Lemma gs_failure_log_excerpt name rc err excerpt :
  EvLog (MsgStderr excerpt) ∈ gs_failure_log name rc err ->
  excerpt = PyStr.slice_to 500 (PyStr.strip err) /\ (PyStr.len excerpt <= 500)%nat.
Proof.
  unfold gs_failure_log. intros H. apply elem_of_cons in H as [H|H]; [discriminate|].
  case_bool_decide; [inversion H|].
  apply list_elem_of_singleton in H. injection H as ->.
  split; [reflexivity | apply PyStrFacts.slice_to_len].
Qed.

Lemma unlink_quietly_file fs p :
  Fs.is_file fs p = true -> Fs.exists_ (unlink_quietly fs p) p = false.
Proof.
  intros Hf. apply is_file_true in Hf as [c Hc].
  unfold unlink_quietly.
  assert (Hex : Fs.exists_ fs p = true) by (apply exists_true; rewrite Hc; eauto).
  rewrite Hex, (unlink_file _ _ _ Hc). simpl.
  apply exists_false. rewrite lookup_node_delete by (eapply lookup_node_File; eauto).
  case_decide; [reflexivity | contradiction].
Qed.

(** C7.  A job whose invocation ends with a nonzero code, or leaves no
    temporary file, or an empty one, is recorded as failed: the failed
    counter is one higher and the others are as they were, the failure
    is logged with at most 500 characters of the error stream, the
    temporary file is removed when it can be (a removal that raises is
    passed over), and the loop goes on with the next file. *)
Theorem failure_handling i pdf st out_pdf fs1 tmp_out rc out err fs3 rest :
  safe_output_path (fsys st) out_dir in_root pdf = Some (out_pdf, fs1) ->
  Fs.exists_ fs1 out_pdf && negb (overwrite i) = false ->
  PurePath.with_suffix out_pdf ".tmp.pdf" = Some tmp_out ->
  compress_pdf gs pdf tmp_out preset (unlink_quietly fs1 tmp_out)
    = Some (rc, out, err, fs3) ->
  rc <> 0 \/ Fs.exists_ fs3 tmp_out = false \/ st_size fs3 tmp_out = Some 0 ->
  exists st',
    job i pdf st = Some st'
    /\ failed st' = S (failed st)
    /\ ok st' = ok st /\ skipped st' = skipped st
    /\ total_in_bytes st' = total_in_bytes st
    /\ total_out_bytes st' = total_out_bytes st
    /\ log_q st' = log_q st ++ gs_failure_log (PurePath.name pdf) rc err ++ [EvProgress i]
    /\ EvLog (MsgFailGs (PurePath.name pdf) rc) ∈ log_q st'
    /\ (err <> "" -> EvLog (MsgStderr (PyStr.slice_to 500 (PyStr.strip err))) ∈ log_q st')
    /\ (forall excerpt, EvLog (MsgStderr excerpt) ∈ gs_failure_log (PurePath.name pdf) rc err ->
                        (PyStr.len excerpt <= 500)%nat)
    /\ fsys st' = unlink_quietly fs3 tmp_out
    /\ (Fs.is_file fs3 tmp_out = true -> Fs.exists_ (fsys st') tmp_out = false)
    /\ (stop_flag i = false ->
        worker_loop i (pdf :: rest) st = worker_loop (S i) rest st').
Proof.
  intros Hsafe Hskip Htmp Hrun Hbad.
  apply invocation_ok_false in Hbad.
  assert (Hjob : job i pdf st
                 = Some (WState (ok st) (skipped st) (S (failed st))
                           (total_in_bytes st) (total_out_bytes st)
                           (unlink_quietly fs3 tmp_out)
                           (log_q st ++ gs_failure_log (PurePath.name pdf) rc err
                            ++ [EvProgress i])
                           (calls st ++ [compress_cmd gs pdf tmp_out preset]))).
  { unfold Orchestrator.job. rewrite Hsafe, Hskip, Htmp. simpl. rewrite Hrun, Hbad.
    reflexivity. }
  eexists. split; [exact Hjob|].
  cbn [ok skipped failed total_in_bytes total_out_bytes fsys log_q calls].
  repeat match goal with |- _ /\ _ => split end; try reflexivity.
  - apply elem_of_app. right. apply elem_of_app. left. left.
  - intros Herr. apply elem_of_app. right. apply elem_of_app. left.
    unfold gs_failure_log. right. case_bool_decide; [contradiction | left].
  - intros excerpt H. eapply gs_failure_log_excerpt, H.
  - apply unlink_quietly_file.
  - intros Hstop. simpl. rewrite Hstop, Hjob. reflexivity.
Qed.

(** *** Counting *)

Lemma outcomes_app q1 q2 : outcomes (q1 ++ q2) = (outcomes q1 + outcomes q2)%nat.
Proof. unfold outcomes. rewrite filter_app, length_app. reflexivity. Qed.

Lemma outcomes_gs_failure_log name rc err :
  outcomes (gs_failure_log name rc err) = 1%nat.
Proof. unfold gs_failure_log. case_bool_decide; reflexivity. Qed.

Ltac job_cases H :=
  unfold Orchestrator.job in H;
  repeat match type of H with
    | match ?x with _ => _ end = _ =>
        let E := fresh "E" in destruct x eqn:E; try discriminate
    | (let '(_, _) := ?x in _) = _ =>
        let E := fresh "E" in destruct x eqn:E; try discriminate
    | (if ?x then _ else _) = _ =>
        let E := fresh "E" in destruct x eqn:E; try discriminate
    end;
  injection H as <-.

Lemma job_counts i pdf st st' :
  job i pdf st = Some st' ->
  ((ok st' = S (ok st) /\ skipped st' = skipped st /\ failed st' = failed st)
   \/ (ok st' = ok st /\ skipped st' = S (skipped st) /\ failed st' = failed st)
   \/ (ok st' = ok st /\ skipped st' = skipped st /\ failed st' = S (failed st)))
  /\ outcomes (log_q st') = S (outcomes (log_q st)).
Proof.
  intros H. job_cases H; cbn [ok skipped failed log_q];
    rewrite ?outcomes_app, ?outcomes_gs_failure_log;
    (split; [auto |]);
    repeat case_bool_decide;
    match goal with
    | |- (_ + ?x)%nat = _ => replace x with 1%nat by reflexivity
    end; lia.
Qed.

Lemma worker_loop_counts pdfs : forall i st st' untouched,
  worker_loop i pdfs st = Some (st', untouched) ->
  (ok st' + skipped st' + failed st' + length untouched
   = ok st + skipped st + failed st + length pdfs)%nat
  /\ (outcomes (log_q st') + length untouched
      = outcomes (log_q st) + length pdfs)%nat
  /\ exists done, pdfs = done ++ untouched.
Proof.
  induction pdfs as [|pdf rest IH]; intros i st st' untouched; cbn [Orchestrator.worker_loop].
  - intros [= <- <-]. repeat split; try reflexivity. exists []. reflexivity.
  - destruct (stop_flag i).
    + intros [= <- <-]. repeat split; try reflexivity. exists []. reflexivity.
    + destruct (job i pdf st) as [st1|] eqn:Hjob; [|discriminate].
      intros H. apply IH in H as (H1 & H2 & done & ->).
      apply job_counts in Hjob as [Hc Ho].
      cbn [length] in *.
      split; [destruct Hc as [(?&?&?)|[(?&?&?)|(?&?&?)]]; lia|].
      split; [lia|].
      exists (pdf :: done). reflexivity.
Qed.


(** *** Stopping *)

#[local] Abbreviation never := (fun _ : nat => false).
#[local] Abbreviation worker_loop_unstopped :=
  (Orchestrator.worker_loop dir_st_size path_str subprocess_run never overwrite
     in_root out_dir gs preset).
#[local] Abbreviation worker_unstopped :=
  (Orchestrator.worker dir_st_size path_str subprocess_run never overwrite
     in_root out_dir gs preset).

Lemma worker_loop_unstopped_all pdfs : forall i st st' untouched,
  worker_loop_unstopped i pdfs st = Some (st', untouched) -> untouched = [].
Proof.
  induction pdfs as [|pdf rest IH]; intros i st st' untouched;
    cbn [Orchestrator.worker_loop].
  - intros [= _ <-]. reflexivity.
  - destruct (job i pdf st) as [st1|]; [|discriminate]. apply IH.
Qed.

Lemma worker_loop_stop k : forall pdfs i st,
  (forall j, (i <= j < i + k)%nat -> stop_flag j = false) ->
  stop_flag (i + k) = true ->
  (k < length pdfs)%nat ->
  worker_loop i pdfs st
  = match worker_loop_unstopped i (take k pdfs) st with
    | Some (st', _) => Some (st', drop k pdfs)
    | None => None
    end.
Proof.
  induction k as [|k IH]; intros pdfs i st Hbefore Hat Hlen.
  - rewrite Nat.add_0_r in Hat. destruct pdfs as [|pdf rest]; [simpl in Hlen; lia|].
    cbn [Orchestrator.worker_loop take drop]. rewrite Hat. reflexivity.
  - destruct pdfs as [|pdf rest]; [simpl in Hlen; lia|].
    cbn [Orchestrator.worker_loop take drop].
    rewrite (Hbefore i) by lia.
    destruct (job i pdf st) as [st1|]; [|reflexivity].
    apply IH.
    + intros j Hj. apply Hbefore. lia.
    + replace (S i + k)%nat with (i + S k)%nat by lia. exact Hat.
    + simpl in Hlen. lia.
Qed.

(** C8.  The flag is read once before each file and nowhere else.  When
    it is set while file [k] of [n] is processed (unset at the first
    [k] checks, set at the next), the run is the run without a stop on
    the first [k] files: the same counters, byte totals, files and
    commands, [k] outcome lines, the files from [k+1] on untouched,
    and a summary with the totals of the first [k] files. *)
Theorem stop_semantics pdfs k fs :
  (forall i, (1 <= i <= k)%nat -> stop_flag i = false) ->
  stop_flag (S k) = true ->
  (k < length pdfs)%nat ->
  match worker_unstopped (take k pdfs) fs with
  | Some (st_k, _) =>
      exists st,
        worker pdfs fs = Some (st, drop k pdfs)
        /\ ok st = ok st_k /\ skipped st = skipped st_k /\ failed st = failed st_k
        /\ total_in_bytes st = total_in_bytes st_k
        /\ total_out_bytes st = total_out_bytes st_k
        /\ fsys st = fsys st_k /\ calls st = calls st_k
        /\ outcomes (log_q st) = k
        /\ List.last (log_q st) (EvProgress 0)
           = EvDone (ok st_k) (skipped st_k) (failed st_k) (length pdfs)
               (total_saved st_k) (total_in_bytes st_k)
  | None => worker pdfs fs = None
  end.
Proof.
  intros Hbefore Hat Hlen.
  assert (Hloop := worker_loop_stop k pdfs 1 (init fs)
                     ltac:(intros j Hj; apply Hbefore; lia) Hat Hlen).
  unfold Orchestrator.worker.
  destruct (worker_loop_unstopped 1 (take k pdfs) (init fs)) as [[st1 u]|] eqn:Hk;
    rewrite Hloop; [|reflexivity].
  eexists. split; [reflexivity|].
  cbn [ok skipped failed total_in_bytes total_out_bytes fsys calls log_q].
  repeat match goal with |- _ /\ _ => split end; try reflexivity.
  - rewrite outcomes_app. change (outcomes [done_event _ _]) with 0%nat.
    apply worker_loop_counts in Hloop as (_ & H2 & _).
    rewrite length_drop in H2. cbn in H2. lia.
  - rewrite last_last. reflexivity.
Qed.

(** *** The commands that a run issues *)

Lemma job_calls i pdf st st' :
  job i pdf st = Some st' ->
  calls st' = calls st
  \/ exists tmp_out, calls st' = calls st ++ [compress_cmd gs pdf tmp_out preset].
Proof.
  intros H. job_cases H; cbn [calls]; eauto.
Qed.

Lemma worker_loop_calls pdfs : forall i st st' untouched,
  worker_loop i pdfs st = Some (st', untouched) ->
  Forall (uses_preset preset) (calls st) -> Forall (uses_preset preset) (calls st').
Proof.
  induction pdfs as [|pdf rest IH]; intros i st st' untouched;
    cbn [Orchestrator.worker_loop].
  - intros [= <- _]. auto.
  - destruct (stop_flag i); [intros [= <- _]; auto|].
    destruct (job i pdf st) as [st1|] eqn:Hjob; [|discriminate].
    intros Hloop Hall. eapply IH; [exact Hloop|].
    apply job_calls in Hjob as [-> | [tmp_out ->]]; [exact Hall|].
    apply Forall_app. split; [exact Hall|]. constructor; [reflexivity | constructor].
Qed.

Lemma worker_calls pdfs fs st untouched :
  worker pdfs fs = Some (st, untouched) -> Forall (uses_preset preset) (calls st).
Proof.
  unfold Orchestrator.worker.
  destruct (worker_loop 1 pdfs (init fs)) as [[st1 u]|] eqn:Hloop; [|discriminate].
  intros [= <- _]. cbn [calls].
  eapply worker_loop_calls; [exact Hloop | constructor].
Qed.

(** *** Promotion *)

Lemma parent_ne (p : Path) : p <> [] -> PurePath.parent p <> p.
Proof.
  intros Hp Heq. apply (f_equal (@length _)) in Heq.
  rewrite parent_length in Heq. destruct p; [contradiction | simpl in Heq; lia].
Qed.







(** The three paths of a job are different when the two roots are. *)
Lemma job_paths_differ fs pdf out_pdf fs1 tmp_out :
  in_root <> out_dir ->
  safe_output_path fs out_dir in_root pdf = Some (out_pdf, fs1) ->
  PurePath.with_suffix out_pdf ".tmp.pdf" = Some tmp_out ->
  pdf <> out_pdf /\ tmp_out <> out_pdf /\ tmp_out <> []
  /\ (pdf <> in_root -> pdf <> tmp_out).
Proof.
  intros Hroots Hsafe Htmp.
  apply safe_output_path_Some in Hsafe as (rel & -> & -> & _).
  split; [intros Heq; apply app_inv_tail in Heq; contradiction|].
  split; [eapply TmpPath.with_suffix_tmp_ne; exact Htmp|].
  pose proof (with_suffix_length _ _ _ Htmp) as Hlen.
  apply with_suffix_Some in Htmp as [Hne Heq].
  split; [subst tmp_out; intros H; apply app_eq_nil in H as [_ H]; discriminate|].
  intros Hrel Hpt.
  assert (Hr : rel <> []) by (intros ->; apply Hrel; apply app_nil_r).
  rewrite parent_app in Heq by exact Hr.
  rewrite <- app_assoc in Heq. rewrite Heq in Hpt.
  apply app_inj_2 in Hpt as [Hpt _]; [contradiction|].
  rewrite length_app, parent_length. simpl. destruct rel; [contradiction | simpl; lia].
Qed.

(** A job whose invocation succeeded ends in one of two ways: promoted,
    or failed because a file operation of the promotion raised. *)
Lemma job_after_invocation i pdf st out_pdf fs1 tmp_out rc out err fs3 :
  safe_output_path (fsys st) out_dir in_root pdf = Some (out_pdf, fs1) ->
  Fs.exists_ fs1 out_pdf && negb (overwrite i) = false ->
  PurePath.with_suffix out_pdf ".tmp.pdf" = Some tmp_out ->
  compress_pdf gs pdf tmp_out preset (unlink_quietly fs1 tmp_out)
    = Some (rc, out, err, fs3) ->
  invocation_ok rc fs3 tmp_out = true ->
  exists st',
    job i pdf st = Some st'
    /\ skipped st' = skipped st
    /\ ((ok st' = S (ok st) /\ failed st' = failed st)
        \/ (ok st' = ok st /\ failed st' = S (failed st)
            /\ total_out_bytes st' = total_out_bytes st
            /\ EvLog (MsgFailWrite (PurePath.name pdf)) ∈ log_q st')).
Proof.
  intros Hsafe Hskip Htmp Hrun Hok.
  unfold Orchestrator.job. rewrite Hsafe, Hskip, Htmp. cbn zeta. rewrite Hrun, Hok.
  destruct (try_promote _ _ _ _ _) as [[fs4 tin] [[a b|a b]|]];
    eexists; (split; [reflexivity|]); cbn [ok skipped failed total_out_bytes log_q];
    (split; [reflexivity|]); [left; auto | left; auto | right].
  repeat split. apply elem_of_app. right. left.
Qed.



(** *** The byte totals *)

Lemma unlink_if_exists_Some fs p fs1 :
  unlink_if_exists fs p = Some fs1 ->
  p <> [] /\ Fs.lookup_node fs1 p = None
  /\ (forall q, q <> p -> Fs.lookup_node fs1 q = Fs.lookup_node fs q).
Proof.
  unfold unlink_if_exists. destruct (Fs.exists_ fs p) eqn:Hex.
  - intros Hu. apply unlink_Some in Hu as (Hp & -> & _). split; [exact Hp|].
    split; [|intros q Hq]; rewrite lookup_node_delete by exact Hp;
      case_decide; congruence.
  - intros [= <-]. apply exists_false in Hex.
    split; [eapply lookup_node_None; exact Hex|]. split; [exact Hex | reflexivity].
Qed.








End Run.

End OrchestratorFacts.

(** ** The preset of a run *)

Module PresetFacts.
Import Orchestrator.

Lemma preset_map_unknown choice :
  choice ∉ map fst PDF_PRESETS -> preset_map !! choice = None.
Proof.
  intros H. cbn in H. rewrite !not_elem_of_cons in H.
  destruct H as (H1 & H2 & H3 & H4 & H5 & _).
  unfold preset_map, dict, PDF_PRESETS. cbn [foldl fst snd].
  rewrite !lookup_insert_ne by congruence. apply lookup_empty.
Qed.

Lemma preset_map_known label token :
  (label, token) ∈ PDF_PRESETS -> preset_value label = token.
Proof.
  intros H. unfold PDF_PRESETS in H. rewrite !elem_of_cons in H.
  destruct H as [H|[H|[H|[H|[H|H]]]]]; try (injection H as -> ->; reflexivity).
  inversion H.
Qed.

(** C10.  A preset label that is none of the five known ones does not
    stop the run: the lookup falls back on "/ebook", and every command
    of the run carries that setting. *)
Theorem implicit_preset_default choice :
  choice ∉ map fst PDF_PRESETS ->
  preset_value choice = "/ebook"
  /\ forall dir_st_size path_str subprocess_run stop_flag overwrite
            in_root out_dir gs pdfs fs st untouched,
       worker dir_st_size path_str subprocess_run stop_flag overwrite
         in_root out_dir gs (preset_value choice) pdfs fs = Some (st, untouched) ->
       Forall (uses_preset "/ebook") (calls st).
Proof.
  intros H.
  assert (Hv : preset_value choice = "/ebook").
  { unfold preset_value. rewrite (preset_map_unknown _ H). reflexivity. }
  split; [exact Hv|]. rewrite Hv. intros. eapply OrchestratorFacts.worker_calls.
  eassumption.
Qed.

End PresetFacts.

(** ** Validation *)

Module ValidationFacts.
Import Validation Orchestrator PurePathFacts FsFacts.

Section Validate.

Variable which : string -> option string.
Variable path_of_str : string -> Path.
Variable resolve : Path -> Path.

#[local] Abbreviation validate := (validate which path_of_str resolve).
#[local] Abbreviation avoid_input_output := (avoid_input_output resolve).

Lemma validate_Some fs input_text output_text gs_text v fs' :
  validate fs input_text output_text gs_text = Some (v, fs') ->
  let in_path := path_of_str (PyStr.strip input_text) in
  let out_dir := path_of_str (PyStr.strip output_text) in
  let is_file := Fs.is_file fs in_path in
  v_in_path v = in_path
  /\ v_is_file v = is_file
  /\ worker_in_root v = comp_target in_path is_file
  /\ (v_out_dir v, fs') = avoid_input_output fs in_path out_dir is_file
  /\ Fs.exists_ fs in_path = true
  /\ Fs.is_dir fs out_dir = true.
Proof.
  unfold Validation.validate. cbn zeta.
  set (in_path := path_of_str (PyStr.strip input_text)).
  set (out_dir := path_of_str (PyStr.strip output_text)).
  destruct (Fs.exists_ fs in_path) eqn:Hex; [|discriminate]. cbn [negb].
  destruct (Fs.is_file fs in_path && _); [discriminate|].
  destruct (negb (Fs.is_file fs in_path) && _); [discriminate|].
  destruct (Fs.is_dir fs out_dir) eqn:Hout; [|discriminate]. cbn [negb].
  match goal with |- match ?o with _ => _ end = _ -> _ => destruct o as [gs|] end;
    [|discriminate].
  destruct (avoid_input_output fs in_path out_dir (Fs.is_file fs in_path))
    as [out_dir' fs1] eqn:Havoid.
  intros [= <- <-]. unfold worker_in_root, comp_target. cbn.
  repeat split. destruct (Fs.is_file fs in_path); reflexivity.
Qed.

(** The worker never gets the same path for its two roots. *)
Lemma validated_roots_differ fs input_text output_text gs_text v fs' :
  validate fs input_text output_text gs_text = Some (v, fs') ->
  worker_in_root v <> v_out_dir v.
Proof.
  intros H. apply validate_Some in H as (_ & _ & Hroot & Havoid & _).
  cbn zeta in *. rewrite Hroot. unfold Validation.avoid_input_output in Havoid.
  case_bool_decide as Hres; injection Havoid as -> _.
  - unfold PurePath.joinpath. intros Heq. apply (f_equal (@length _)) in Heq.
    rewrite length_app in Heq. simpl in Heq. lia.
  - intros Heq. apply Hres. rewrite Heq. reflexivity.
Qed.

(** In single-file mode the file is beneath the root the worker
    gets. *)
Lemma single_file_beneath_root fs input_text output_text gs_text v fs' :
  validate fs input_text output_text gs_text = Some (v, fs') ->
  v_is_file v = true ->
  v_in_path v <> worker_in_root v.
Proof.
  intros H Hf. apply validate_Some in H as (Hin & Hisf & _).
  cbn zeta in *. unfold worker_in_root. rewrite Hf.
  intros Heq. symmetry in Heq. revert Heq. apply OrchestratorFacts.parent_ne.
  rewrite Hf in Hisf. symmetry in Hisf. apply is_file_true in Hisf as [c Hc].
  rewrite Hin. eapply lookup_node_File. exact Hc.
Qed.

(** C5.  When the resolved output folder is the resolved input root
    (the input folder, or the folder of the input file), validation
    hands the worker the "_compressed" child of the input root as its
    output root, made on the spot when nothing stands in its way; so
    the output path and the temporary path of a file beneath the input
    root lie beneath that child and never directly in the input
    root. *)
Theorem output_root_redirect fs input_text output_text gs_text v fs' :
  validate fs input_text output_text gs_text = Some (v, fs') ->
  resolve (comp_target (path_of_str (PyStr.strip input_text))
             (Fs.is_file fs (path_of_str (PyStr.strip input_text))))
  = resolve (path_of_str (PyStr.strip output_text)) ->
  v_out_dir v = worker_in_root v ++ ["_compressed"]
  /\ (forall fs1, Fs.mkdir_parents fs (v_out_dir v) = Some fs1 ->
                  fs' = fs1 /\ Fs.is_dir fs' (v_out_dir v) = true
                  /\ Fs.grows_by_dirs fs fs')
  /\ (forall fsx pdf out_pdf fs1,
        pdf <> worker_in_root v ->
        safe_output_path fsx (v_out_dir v) (worker_in_root v) pdf = Some (out_pdf, fs1) ->
        (exists rel, rel <> [] /\ pdf = worker_in_root v ++ rel
                     /\ out_pdf = worker_in_root v ++ "_compressed" :: rel)
        /\ PurePath.parent out_pdf <> worker_in_root v
        /\ out_pdf <> pdf
        /\ (forall tmp_out,
              PurePath.with_suffix out_pdf ".tmp.pdf" = Some tmp_out ->
              PurePath.parent tmp_out <> worker_in_root v /\ tmp_out <> pdf)).
Proof.
  intros H Hres. pose proof (validated_roots_differ _ _ _ _ _ _ H) as Hdiff.
  apply validate_Some in H as (_ & _ & Hroot & Havoid & _).
  cbn zeta in *. unfold Validation.avoid_input_output, PurePath.joinpath in Havoid.
  rewrite bool_decide_eq_true_2 in Havoid by exact Hres.
  rewrite <- Hroot in Havoid. injection Havoid as Hout Hfs.
  split; [exact Hout|]. split.
  { intros fs1 Hmk. rewrite <- Hout, Hmk in Hfs. cbn in Hfs. subst fs'.
    apply mkdir_parents_Some in Hmk as [G D]. auto. }
  intros fsx pdf out_pdf fs1 Hpdf Hsafe.
  pose proof Hsafe as Hsafe'.
  apply (OrchestratorFacts.safe_output_path_Some) in Hsafe as (rel & Hp & Ho & _).
  assert (Hrel : rel <> []) by (intros ->; apply Hpdf; rewrite Hp; apply app_nil_r).
  assert (Hparent : PurePath.parent out_pdf
                    = worker_in_root v ++ "_compressed" :: PurePath.parent rel).
  { rewrite Ho, Hout, <- app_assoc. rewrite parent_app by (destruct rel; discriminate).
    f_equal. cbn [app]. change ("_compressed" :: rel) with (["_compressed"] ++ rel).
    rewrite parent_app by exact Hrel. reflexivity. }
  assert (Hup : forall l : Path, worker_in_root v ++ "_compressed" :: l <> worker_in_root v).
  { intros l Heq. apply (f_equal (@length _)) in Heq.
    rewrite length_app in Heq. simpl in Heq. lia. }
  split; [exists rel; rewrite Ho, Hout, <- app_assoc; auto|].
  split; [rewrite Hparent; apply Hup|].
  split.
  { intros Heq. rewrite Ho, Hp in Heq. apply app_inv_tail in Heq.
    apply Hdiff. symmetry. exact Heq. }
  intros tmp_out Htmp.
  destruct (OrchestratorFacts.job_paths_differ _ _ _ _ _ _ _ Hdiff Hsafe' Htmp)
    as (_ & _ & _ & Hpt).
  split; [|intros Heq; apply (Hpt Hpdf); symmetry; exact Heq].
  rewrite (with_suffix_parent _ _ _ Htmp), Hparent. apply Hup.
Qed.

End Validate.

End ValidationFacts.

(** ** The enumeration *)

Module EnumeratorFacts.
Import Enumerator PyStrFacts PurePathFacts.

Lemma tree_ind (P : tree -> Prop) :
  P TFile ->
  (forall es, Forall (fun e => P e.2) es -> P (TDir es)) ->
  forall t, P t.
Proof.
  intros HF HD. fix IH 1. intros [|es]; [exact HF|].
  apply HD. induction es as [|[d sub] es IHes]; constructor; [apply IH | exact IHes].
Qed.

Lemma walk_TDir top es :
  walk top (TDir es)
  = (top, dirnames es, filenames es)
    :: flat_map (fun e => walk (top ++ [e.1]) e.2) es.
Proof.
  cbn [walk]. f_equal.
  induction es as [|[d sub] es IH]; [reflexivity|]. cbn [flat_map fst snd]. rewrite IH.
  reflexivity.
Qed.

(** The recursive enumeration, before it is wrapped. *)
Lemma list_pdfs_recursive top t :
  list_pdfs top t true
  = Some (flat_map
            (fun '(root, _, files) =>
               map (fun fn => root ++ [fn]) (filter (fun fn => is_pdf_name fn = true) files))
            (walk top t)).
Proof. reflexivity. Qed.

Lemma flat_map_flat_map {A B C} (f : A -> list B) (g : B -> list C) l :
  flat_map g (flat_map f l) = flat_map (fun a => flat_map g (f a)) l.
Proof.
  induction l as [|a l IH]; [reflexivity|]. cbn [flat_map].
  rewrite flat_map_app, IH. reflexivity.
Qed.

(** Directory by directory: the files of the directory itself, then the
    enumeration of each of its subdirectories in turn. *)
Lemma list_pdfs_TDir top es :
  default [] (list_pdfs top (TDir es) true)
  = map (fun fn => top ++ [fn]) (filter (fun fn => is_pdf_name fn = true) (filenames es))
    ++ flat_map (fun e => default [] (list_pdfs (top ++ [e.1]) e.2 true)) es.
Proof.
  rewrite list_pdfs_recursive, walk_TDir. cbn [default flat_map]. f_equal.
  rewrite flat_map_flat_map. reflexivity.
Qed.

Lemma list_pdfs_TFile top : list_pdfs top TFile true = Some [].
Proof. reflexivity. Qed.

Lemma elem_of_filenames fn es : fn ∈ filenames es <-> (fn, TFile) ∈ es.
Proof.
  unfold filenames. rewrite list_elem_of_fmap. split.
  - intros [[fn' t] [-> H]]. apply list_elem_of_filter in H as [Hf H].
    destruct t; [exact H | discriminate].
  - intros H. exists (fn, TFile). split; [reflexivity|].
    apply list_elem_of_filter. split; [reflexivity | exact H].
Qed.

Lemma is_pdf_name_spec fn : is_pdf_name fn = true <-> ends_with_nocase fn ".pdf".
Proof.
  unfold is_pdf_name, ends_with_nocase. rewrite endswith_spec. split.
  - intros [pre Hpre]. apply (f_equal PyStr.chars) in Hpre.
    rewrite lower_chars, chars_app in Hpre.
    set (l := PyStr.chars fn) in *. set (k := length (PyStr.chars pre)).
    assert (Hlen : (k <= length l)%nat).
    { apply (f_equal (@length _)) in Hpre.
      rewrite length_map, length_app in Hpre. fold k in Hpre. lia. }
    rewrite <- (take_drop k l), map_app in Hpre.
    apply app_inj_1 in Hpre as [_ Hsuf].
    + exists (PyStr.of_chars (take k l)), (PyStr.of_chars (drop k l)). split.
      * rewrite <- of_chars_app, take_drop. symmetry. apply of_chars_chars.
      * apply chars_inj. rewrite lower_chars, chars_of_chars. exact Hsuf.
    + rewrite length_map, length_take. fold k. lia.
  - intros (pre & suf & -> & Hsuf). exists (PyStr.lower pre).
    rewrite lower_app, Hsuf. reflexivity.
Qed.

(** A name whose suffix is ".pdf" up to case ends in ".pdf" up to
    case. *)
Lemma has_pdf_suffix_ends fn : has_pdf_suffix fn = true -> ends_with_nocase fn ".pdf".
Proof.
  unfold has_pdf_suffix, PurePath.name_suffix. intros H. apply bool_decide_eq_true in H.
  destruct (PyStr.rfind_dot fn) as [i|]; [|discriminate].
  destruct ((0 <? i)%nat && _); [|discriminate].
  exists (PyStr.of_chars (take i (PyStr.chars fn))),
         (PyStr.of_chars (drop i (PyStr.chars fn))).
  split; [|exact H]. rewrite <- of_chars_app, take_drop. symmetry. apply of_chars_chars.
Qed.

Lemma elem_of_list_pdfs_recursive t : forall top p,
  p ∈ default [] (list_pdfs top t true)
  <-> exists rel, p = top ++ rel /\ file_beneath t rel
                   /\ is_pdf_name (PurePath.name p) = true.
Proof.
  induction t as [|es IH] using tree_ind; intros top p.
  - rewrite list_pdfs_TFile. cbn. split; [intros H; inversion H|].
    intros (rel & _ & Hb & _). inversion Hb.
  - rewrite list_pdfs_TDir, elem_of_app. split.
    + intros [H|H].
      * apply list_elem_of_fmap in H as (fn & -> & H).
        apply list_elem_of_filter in H as [Hpdf H].
        exists [fn]. rewrite name_snoc. split; [reflexivity|].
        split; [constructor; apply elem_of_filenames, H | exact Hpdf].
      * apply list_elem_of_In, in_flat_map in H as ([d sub] & Hin & H).
        apply list_elem_of_In in Hin, H. cbn [fst snd] in H.
        rewrite Forall_forall in IH. apply (IH _ Hin) in H as (rel & -> & Hb & Hpdf).
        exists (d :: rel). rewrite <- app_assoc in *.
        split; [reflexivity|]. split; [econstructor; eassumption | exact Hpdf].
    + intros (rel & -> & Hb & Hpdf). inversion Hb as [es' fn Hin | es' d sub rel' Hin Hsub]; subst.
      * left. apply list_elem_of_fmap. exists fn. split; [reflexivity|].
        apply list_elem_of_filter. rewrite name_snoc in Hpdf.
        split; [exact Hpdf | apply elem_of_filenames, Hin].
      * right. apply list_elem_of_In, in_flat_map. exists (d, sub).
        split; [apply list_elem_of_In, Hin|]. apply list_elem_of_In. cbn [fst snd].
        rewrite Forall_forall in IH. apply (IH _ Hin).
        exists rel'. rewrite <- app_assoc. auto.
Qed.

(** C9.  On a directory, the recursive enumeration gives exactly the
    files beneath the root whose name ends in ".pdf" up to case, the
    files of a directory first and then each of its subdirectories in
    turn; the flat enumeration gives exactly the files directly in the
    root whose suffix is ".pdf" up to case, in the order of the
    listing. *)
Theorem file_enumeration root es :
  (exists l,
      list_pdfs root (TDir es) true = Some l
      /\ (forall p, p ∈ l <-> exists rel, p = root ++ rel /\ file_beneath (TDir es) rel
                                       /\ ends_with_nocase (PurePath.name p) ".pdf")
      /\ l = map (fun fn => root ++ [fn])
               (filter (fun fn => is_pdf_name fn = true) (filenames es))
             ++ flat_map (fun e => default [] (list_pdfs (root ++ [e.1]) e.2 true)) es)
  /\ (exists l,
        list_pdfs root (TDir es) false = Some l
        /\ (forall p, p ∈ l <-> exists fn, p = root ++ [fn] /\ (fn, TFile) ∈ es
                                         /\ PyStr.lower (PurePath.suffix p) = ".pdf")
        /\ (forall p, p ∈ l -> ends_with_nocase (PurePath.name p) ".pdf")
        /\ l = map (fun fn => root ++ [fn])
                 (filter (fun fn => has_pdf_suffix fn = true) (filenames es))).
Proof.
  split.
  - eexists. split; [reflexivity|]. split.
    + intros p. split.
      * intros H.
        destruct (proj1 (elem_of_list_pdfs_recursive (TDir es) root p) H)
          as (rel & Hp & Hb & Hpdf).
        exists rel.
        split; [exact Hp|]. split; [exact Hb | apply is_pdf_name_spec, Hpdf].
      * intros (rel & Hp & Hb & Hpdf).
        apply (proj2 (elem_of_list_pdfs_recursive (TDir es) root p)). exists rel.
        split; [exact Hp|]. split; [exact Hb | apply is_pdf_name_spec, Hpdf].
    + apply (list_pdfs_TDir root es).
  - eexists. split; [reflexivity|]. split; [|split; [|reflexivity]].
    + intros p. rewrite list_elem_of_fmap. split.
      * intros (fn & -> & H). apply list_elem_of_filter in H as [Hs H].
        exists fn. split; [reflexivity|]. split; [apply elem_of_filenames, H|].
        unfold PurePath.suffix. rewrite name_snoc.
        apply bool_decide_eq_true in Hs. exact Hs.
      * intros (fn & -> & Hin & Hs). exists fn. split; [reflexivity|].
        apply list_elem_of_filter. split; [|apply elem_of_filenames, Hin].
        unfold PurePath.suffix in Hs. rewrite name_snoc in Hs.
        apply bool_decide_eq_true. exact Hs.
    + intros p H. apply list_elem_of_fmap in H as (fn & -> & H).
      apply list_elem_of_filter in H as [Hs _]. rewrite name_snoc.
      apply has_pdf_suffix_ends, Hs.
Qed.

(** Every enumerated path lies beneath the root, never on it. *)
Lemma list_pdfs_beneath root t recursive l p :
  list_pdfs root t recursive = Some l -> p ∈ l ->
  exists rel, rel <> [] /\ p = root ++ rel.
Proof.
  destruct recursive.
  - intros H Hp. assert (Hl : l = default [] (list_pdfs root t true)) by (rewrite H; reflexivity).
    rewrite Hl in Hp. apply elem_of_list_pdfs_recursive in Hp as (rel & -> & Hb & _).
    exists rel. split; [|reflexivity]. destruct Hb; discriminate.
  - destruct t as [|es]; [discriminate|]. intros [= <-] Hp.
    apply list_elem_of_fmap in Hp as (fn & -> & _). exists [fn]. split; [discriminate | reflexivity].
Qed.

End EnumeratorFacts.


(** * Further properties of the orchestrator *)

Module OrchestratorMore.
Import Orchestrator Trace PurePathFacts FsFacts OrchestratorFacts.

Section Run.

Variable dir_st_size : Z.
Variable path_str : Path -> string.
Variable subprocess_run : list string -> FS -> option (Z * string * string * FS).
Variable stop_flag : nat -> bool.
Variable overwrite : nat -> bool.
Variables (in_root out_dir : Path) (gs preset : string).

#[local] Abbreviation job :=
  (job dir_st_size path_str subprocess_run overwrite in_root out_dir gs preset).
#[local] Abbreviation worker_loop :=
  (worker_loop dir_st_size path_str subprocess_run stop_flag overwrite
     in_root out_dir gs preset).
#[local] Abbreviation worker :=
  (worker dir_st_size path_str subprocess_run stop_flag overwrite
     in_root out_dir gs preset).
#[local] Abbreviation compress_pdf := (compress_pdf path_str subprocess_run).
#[local] Abbreviation compress_cmd := (compress_cmd path_str).
#[local] Abbreviation try_promote := (try_promote dir_st_size).
#[local] Abbreviation invocation_ok := (invocation_ok dir_st_size).
#[local] Abbreviation st_size := (st_size dir_st_size).

(** *** What a job leaves alone *)

Lemma unlink_quietly_frame fs p q :
  q <> p -> Fs.lookup_node (unlink_quietly fs p) q = Fs.lookup_node fs q.
Proof.
  intros Hq. unfold unlink_quietly. destruct (Fs.exists_ fs p); [|reflexivity].
  destruct (Fs.unlink fs p) as [fs'|] eqn:Hu; [|reflexivity]. cbn.
  apply unlink_Some in Hu as (Hp & -> & _).
  rewrite lookup_node_delete by exact Hp. case_decide; [congruence | reflexivity].
Qed.

Lemma unlink_quietly_not_file fs p : Fs.is_file (unlink_quietly fs p) p = false.
Proof.
  destruct (Fs.is_file fs p) eqn:Hf.
  - pose proof (unlink_quietly_file fs p Hf) as Hex. apply exists_false in Hex.
    unfold Fs.is_file. rewrite Hex. reflexivity.
  - unfold unlink_quietly. destruct (Fs.exists_ fs p); [|exact Hf].
    destruct (Fs.unlink fs p) as [fs'|] eqn:Hu; [|exact Hf].
    apply unlink_Some in Hu as (_ & _ & c & Hc).
    unfold Fs.is_file in Hf. rewrite Hc in Hf. discriminate.
Qed.

Lemma unlink_frame fs p fs' q :
  Fs.unlink fs p = Some fs' -> q <> p -> Fs.lookup_node fs' q = Fs.lookup_node fs q.
Proof.
  intros Hu Hq. apply unlink_Some in Hu as (Hp & -> & _).
  rewrite lookup_node_delete by exact Hp. case_decide; [congruence | reflexivity].
Qed.

Lemma copy_file_frame fs src dst fs' q :
  Fs.copy_file fs src dst = Some fs' -> q <> dst ->
  Fs.lookup_node fs' q = Fs.lookup_node fs q.
Proof.
  unfold Fs.copy_file. intros H Hq.
  destruct (Fs.lookup_node fs src) as [[c|]|]; try discriminate.
  case_bool_decide; [discriminate|].
  destruct (Fs.is_dir fs (PurePath.parent dst)); [|discriminate].
  destruct (Fs.lookup_node fs dst) as [[c'|]|] eqn:Hd; try discriminate;
    injection H as <-; (rewrite lookup_node_insert;
      [case_decide; [congruence | reflexivity] | intros ->; discriminate]).
Qed.

Lemma rename_frame fs src dst fs' q :
  Fs.rename fs src dst = Some fs' -> q <> src -> q <> dst ->
  Fs.lookup_node fs' q = Fs.lookup_node fs q.
Proof.
  unfold Fs.rename. intros H Hs Hd. destruct src as [|s0 src]; [discriminate|].
  destruct (Fs.lookup_node fs (s0 :: src)) as [n|]; [|discriminate].
  destruct (Fs.exists_ fs dst) eqn:Hex; [discriminate|].
  destruct (Fs.is_dir fs (PurePath.parent dst)); [|discriminate].
  injection H as <-. apply exists_false, lookup_node_None in Hex.
  rewrite lookup_node_insert by exact Hex. case_decide; [congruence|].
  rewrite lookup_node_delete by discriminate. case_decide; [congruence | reflexivity].
Qed.

(** Whether it raises or not, a promotion changes nothing but the output
    path and the temporary path. *)
Lemma try_promote_frame fs total_in pdf out_pdf tmp_out fs' total_in' r q :
  try_promote fs total_in pdf out_pdf tmp_out = (fs', total_in', r) ->
  q <> out_pdf -> q <> tmp_out ->
  Fs.lookup_node fs' q = Fs.lookup_node fs q.
Proof.
  unfold Orchestrator.try_promote. intros H Ho Ht.
  destruct (st_size fs pdf) as [in_size|]; [|injection H as <- _ _; reflexivity].
  destruct (st_size fs tmp_out) as [out_tmp_size|]; [|injection H as <- _ _; reflexivity].
  destruct (unlink_if_exists fs out_pdf) as [fs1|] eqn:H1;
    [|destruct (_ && _); injection H as <- _ _; reflexivity].
  apply unlink_if_exists_Some in H1 as (Hout & Hnone & Hframe1).
  destruct ((out_tmp_size >=? in_size) && (in_size >? 0)).
  - unfold Fs.copy2 in H.
    replace (Fs.is_dir fs1 out_pdf) with false in H
      by (unfold Fs.is_dir; rewrite Hnone; reflexivity).
    destruct (Fs.copy_file fs1 pdf out_pdf) as [fs2|] eqn:H2;
      [|injection H as <- _ _; apply Hframe1, Ho].
    pose proof (copy_file_frame _ _ _ _ q H2 Ho) as Hframe2.
    destruct (Fs.unlink fs2 tmp_out) as [fs3|] eqn:H3; injection H as <- _ _.
    + rewrite (unlink_frame _ _ _ q H3 Ht), Hframe2. apply Hframe1, Ho.
    + rewrite Hframe2. apply Hframe1, Ho.
  - destruct (Fs.rename fs1 tmp_out out_pdf) as [fs2|] eqn:H2;
      [|injection H as <- _ _; apply Hframe1, Ho].
    pose proof (rename_frame _ _ _ _ q H2 Ht Ho) as Hframe2.
    destruct (st_size fs2 out_pdf); injection H as <- _ _;
      rewrite Hframe2; apply Hframe1, Ho.
Qed.

(** Apart from the directories that [safe_output_path] makes, a job
    changes nothing but its output path and its temporary path. *)
Lemma job_frame_eq i pdf st st' out_pdf fs1 q :
  safe_output_path (fsys st) out_dir in_root pdf = Some (out_pdf, fs1) ->
  job i pdf st = Some st' ->
  q <> out_pdf ->
  (forall tmp_out, PurePath.with_suffix out_pdf ".tmp.pdf" = Some tmp_out -> q <> tmp_out) ->
  tool_keeps subprocess_run q ->
  Fs.lookup_node (fsys st') q = Fs.lookup_node fs1 q.
Proof.
  intros Hsafe Hjob Hqo Hqt Htool. unfold Orchestrator.job in Hjob. rewrite Hsafe in Hjob.
  destruct (Fs.exists_ fs1 out_pdf && negb (overwrite i)).
  { injection Hjob as <-. reflexivity. }
  destruct (PurePath.with_suffix out_pdf ".tmp.pdf") as [tmp_out|]; [|discriminate].
  specialize (Hqt tmp_out eq_refl). cbn zeta in Hjob.
  destruct (compress_pdf _ _ _ _ _) as [[[[rc o] err] fs3]|] eqn:Hrun; [|discriminate].
  apply Htool in Hrun. rewrite unlink_quietly_frame in Hrun by exact Hqt.
  destruct (invocation_ok rc fs3 tmp_out).
  - destruct (try_promote _ _ _ _ _) as [[fs4 tin] r] eqn:E.
    pose proof (try_promote_frame _ _ _ _ _ _ _ _ q E Hqo Hqt) as Hfr.
    destruct r as [[a b|a b]|]; injection Hjob as <-; cbn [fsys];
      rewrite ?unlink_quietly_frame by exact Hqt; congruence.
  - injection Hjob as <-. cbn [fsys]. rewrite unlink_quietly_frame by exact Hqt.
    exact Hrun.
Qed.

Lemma job_frame i pdf st st' out_pdf fs1 q :
  safe_output_path (fsys st) out_dir in_root pdf = Some (out_pdf, fs1) ->
  job i pdf st = Some st' ->
  q <> out_pdf ->
  (forall tmp_out, PurePath.with_suffix out_pdf ".tmp.pdf" = Some tmp_out -> q <> tmp_out) ->
  tool_keeps subprocess_run q ->
  (forall n, Fs.lookup_node (fsys st) q = Some n -> Fs.lookup_node (fsys st') q = Some n)
  /\ (forall c, Fs.lookup_node (fsys st') q = Some (File c) ->
                Fs.lookup_node (fsys st) q = Some (File c)).
Proof.
  intros Hsafe Hjob Hqo Hqt Htool.
  rewrite (job_frame_eq _ _ _ _ _ _ _ Hsafe Hjob Hqo Hqt Htool).
  apply safe_output_path_grows in Hsafe as [[G1 G2] _]. split; [apply G1 | apply G2].
Qed.

Lemma job_Some_safe i pdf st st' :
  job i pdf st = Some st' ->
  exists out_pdf fs1, safe_output_path (fsys st) out_dir in_root pdf = Some (out_pdf, fs1).
Proof.
  unfold Orchestrator.job.
  destruct (safe_output_path _ _ _ _) as [[out_pdf fs1]|]; [eauto | discriminate].
Qed.

(** Both paths that a job writes lie beneath the output root. *)
Lemma job_targets_beneath fs pdf out_pdf fs1 :
  pdf <> in_root ->
  safe_output_path fs out_dir in_root pdf = Some (out_pdf, fs1) ->
  (exists rel, rel <> [] /\ out_pdf = out_dir ++ rel)
  /\ (forall tmp_out, PurePath.with_suffix out_pdf ".tmp.pdf" = Some tmp_out ->
                      exists rel, rel <> [] /\ tmp_out = out_dir ++ rel).
Proof.
  intros Hpdf Hsafe. apply safe_output_path_Some in Hsafe as (rel & -> & -> & _).
  assert (Hrel : rel <> []) by (intros ->; apply Hpdf, app_nil_r).
  split; [exists rel; auto|]. intros tmp_out Htmp.
  apply with_suffix_Some in Htmp as [_ ->]. rewrite parent_app by exact Hrel.
  rewrite <- app_assoc. eexists. split; [|reflexivity].
  intros H. apply app_eq_nil in H as [_ H]. discriminate.
Qed.


Lemma worker_loop_keeps_outside q pdfs : forall i st st' untouched,
  PurePath.relative_to q out_dir = None ->
  tool_keeps subprocess_run q ->
  Forall (fun pdf => pdf <> in_root) pdfs ->
  worker_loop i pdfs st = Some (st', untouched) ->
  (forall n, Fs.lookup_node (fsys st) q = Some n -> Fs.lookup_node (fsys st') q = Some n)
  /\ (forall c, Fs.lookup_node (fsys st') q = Some (File c) ->
                Fs.lookup_node (fsys st) q = Some (File c)).
Proof.
  induction pdfs as [|pdf rest IH]; intros i st st' untouched Hq Htool Hall;
    cbn [Orchestrator.worker_loop].
  - intros [= <- _]. auto.
  - destruct (stop_flag i); [intros [= <- _]; auto|].
    destruct (job i pdf st) as [st1|] eqn:Hjob; [|discriminate].
    intros Hloop. apply Forall_cons in Hall as [Hpdf Hall].
    destruct (IH _ _ _ _ Hq Htool Hall Hloop) as [K1 K2].
    destruct (job_Some_safe _ _ _ _ Hjob) as (out_pdf & fs1 & Hsafe).
    destruct (job_targets_beneath _ _ _ _ Hpdf Hsafe) as [(rel & _ & Hout) Htmp].
    assert (Hne : forall rel', q <> out_dir ++ rel').
    { intros rel' Heq. rewrite Heq, relative_to_app in Hq. discriminate. }
    destruct (job_frame _ _ _ _ _ _ q Hsafe Hjob) as [J1 J2].
    + rewrite Hout. apply Hne.
    + intros tmp_out Ht. destruct (Htmp _ Ht) as (rel' & _ & ->). apply Hne.
    + exact Htool.
    + split; [intros n Hn; apply K1, J1, Hn | intros c Hc; apply J2, K2, Hc].
Qed.

(** X2.  A run changes nothing outside its output root, apart from making
    directories that are missing: for files strictly beneath the input
    root and a path that is not beneath the output root and that the
    external tool leaves alone, what is at that path stays, and a file
    that is there at the end was there, the same, at the start. *)
Theorem run_keeps_outside_output_root q pdfs fs st untouched :
  PurePath.relative_to q out_dir = None ->
  tool_keeps subprocess_run q ->
  Forall (fun pdf => pdf <> in_root) pdfs ->
  worker pdfs fs = Some (st, untouched) ->
  (forall n, Fs.lookup_node fs q = Some n -> Fs.lookup_node (fsys st) q = Some n)
  /\ (forall c, Fs.lookup_node (fsys st) q = Some (File c) ->
                Fs.lookup_node fs q = Some (File c)).
Proof.
  intros Hq Htool Hall. unfold Orchestrator.worker.
  destruct (worker_loop 1 pdfs (init fs)) as [[st1 u]|] eqn:Hloop; [|discriminate].
  intros [= <- _]. cbn [fsys].
  apply (worker_loop_keeps_outside q pdfs _ _ _ _ Hq Htool Hall Hloop).
Qed.

(** *** Invocations *)

Ltac job_split H :=
  unfold Orchestrator.job in H;
  repeat match type of H with
    | match ?x with _ => _ end = _ =>
        let E := fresh "E" in destruct x eqn:E; try discriminate
    | (if ?x then _ else _) = _ =>
        let E := fresh "E" in destruct x eqn:E; try discriminate
    end;
  injection H as <-.

(** The command of a file: Ghostscript on the file itself, writing to
    the temporary path of its mapped output. *)
Lemma job_invocation i pdf st st' out_pdf fs1 :
  safe_output_path (fsys st) out_dir in_root pdf = Some (out_pdf, fs1) ->
  job i pdf st = Some st' ->
  (skipped st' = S (skipped st) /\ calls st' = calls st
   /\ ok st' = ok st /\ failed st' = failed st)
  \/ (skipped st' = skipped st
      /\ (ok st' + failed st' = S (ok st + failed st))%nat
      /\ exists tmp_out,
           PurePath.with_suffix out_pdf ".tmp.pdf" = Some tmp_out
           /\ calls st' = calls st ++ [compress_cmd gs pdf tmp_out preset]).
Proof.
  intros Hsafe Hjob. unfold Orchestrator.job in Hjob. rewrite Hsafe in Hjob.
  destruct (Fs.exists_ fs1 out_pdf && negb (overwrite i)).
  { injection Hjob as <-. left. auto. }
  right. destruct (PurePath.with_suffix out_pdf ".tmp.pdf") as [tmp_out|]; [|discriminate].
  cbn zeta in Hjob.
  destruct (compress_pdf _ _ _ _ _) as [[[[rc o] err] fs3]|]; [|discriminate].
  destruct (invocation_ok rc fs3 tmp_out);
    [destruct (try_promote _ _ _ _ _) as [[fs4 tin] [[a b|a b]|]]|];
    injection Hjob as <-; cbn [ok skipped failed calls];
    (split; [reflexivity|]); (split; [lia|]); eauto.
Qed.

#[local] Abbreviation command_of :=
  (Trace.command_of path_str in_root out_dir gs preset).

Lemma command_of_mono pdf pdfs cmd : command_of pdfs cmd -> command_of (pdf :: pdfs) cmd.
Proof.
  intros (p & rel & tmp & Hin & H). exists p, rel, tmp. split; [right; exact Hin | exact H].
Qed.

Lemma worker_loop_invocations pdfs : forall i st st' untouched,
  worker_loop i pdfs st = Some (st', untouched) ->
  (length (calls st') + (ok st + failed st) = length (calls st) + (ok st' + failed st'))%nat
  /\ exists new, calls st' = calls st ++ new /\ Forall (command_of pdfs) new.
Proof.
  induction pdfs as [|pdf rest IH]; intros i st st' untouched;
    cbn [Orchestrator.worker_loop].
  - intros [= <- _]. split; [lia|]. exists []. rewrite app_nil_r. auto.
  - destruct (stop_flag i).
    { intros [= <- _]. split; [lia|]. exists []. rewrite app_nil_r. auto. }
    destruct (job i pdf st) as [st1|] eqn:Hjob; [|discriminate].
    intros Hloop. apply IH in Hloop as (Hlen & new & Hnew & Hall).
    assert (Hall' : Forall (command_of (pdf :: rest)) new).
    { eapply Forall_impl; [exact Hall|]. intros cmd. apply command_of_mono. }
    destruct (job_Some_safe _ _ _ _ Hjob) as (out_pdf & fs1 & Hsafe).
    destruct (job_invocation _ _ _ _ _ _ Hsafe Hjob)
      as [(Hs & Hc & Ho & Hf) | (Hs & Hof & tmp_out & Htmp & Hc)].
    + rewrite Hc, Ho, Hf in *. split; [lia|]. exists new. auto.
    + rewrite Hc in *. rewrite length_app in Hlen. cbn [length] in Hlen.
      split; [lia|]. exists (compress_cmd gs pdf tmp_out preset :: new).
      split; [rewrite Hnew, <- app_assoc; reflexivity|].
      constructor; [|exact Hall'].
      apply safe_output_path_Some in Hsafe as (rel & Hp & Ho & _).
      exists pdf, rel, tmp_out. rewrite <- Ho. repeat split; [left | exact Hp | exact Htmp].
Qed.

(** X3.  The external tool runs once for every file that is processed and
    not skipped, and for nothing else: at the end of a run the number of
    commands is the number of succeeded and failed files, and every
    command is the one of an enumerated file, reading that file and
    writing to the temporary path of its mapped output. *)
Theorem one_invocation_per_attempt pdfs fs st untouched :
  worker pdfs fs = Some (st, untouched) ->
  length (calls st) = (ok st + failed st)%nat
  /\ Forall (command_of pdfs) (calls st).
Proof.
  unfold Orchestrator.worker.
  destruct (worker_loop 1 pdfs (init fs)) as [[st1 u]|] eqn:Hloop; [|discriminate].
  intros [= <- _]. cbn [ok failed calls].
  apply worker_loop_invocations in Hloop as (Hlen & new & Hnew & Hall).
  cbn in Hlen, Hnew. subst new. split; [lia | exact Hall].
Qed.

(** *** The events of a run *)

Lemma progress_values_app q1 q2 :
  progress_values (q1 ++ q2) = progress_values q1 ++ progress_values q2.
Proof. apply omap_app. Qed.

Lemma summaries_app q1 q2 : summaries (q1 ++ q2) = summaries q1 ++ summaries q2.
Proof. apply filter_app. Qed.

Lemma job_events i pdf st st' :
  job i pdf st = Some st' ->
  progress_values (log_q st') = progress_values (log_q st) ++ [i]
  /\ summaries (log_q st') = summaries (log_q st).
Proof.
  intros H. job_split H; cbn [log_q];
    rewrite ?progress_values_app, ?summaries_app;
    unfold gs_failure_log; repeat case_bool_decide;
    (split; [|rewrite <- (app_nil_r (summaries (log_q st))) at 2]; f_equal; reflexivity).
Qed.

Lemma worker_loop_events pdfs : forall i st st' untouched,
  worker_loop i pdfs st = Some (st', untouched) ->
  progress_values (log_q st')
  = progress_values (log_q st) ++ seq i (length pdfs - length untouched)
  /\ summaries (log_q st') = summaries (log_q st).
Proof.
  induction pdfs as [|pdf rest IH]; intros i st st' untouched;
    cbn [Orchestrator.worker_loop].
  - intros [= <- <-]. cbn. rewrite app_nil_r. auto.
  - destruct (stop_flag i).
    { intros [= <- <-]. rewrite Nat.sub_diag. cbn. rewrite app_nil_r. auto. }
    destruct (job i pdf st) as [st1|] eqn:Hjob; [|discriminate].
    intros Hloop. pose proof (worker_loop_counts _ _ _ _ _ _ _ _ _ _ _ _ _ _ Hloop)
      as (_ & _ & done & Hdone).
    apply IH in Hloop as [Hp Hs]. apply job_events in Hjob as [Hp1 Hs1].
    rewrite Hp, Hs, Hp1, Hs1, <- app_assoc. split; [|reflexivity]. f_equal.
    subst rest. cbn [length]. rewrite length_app.
    replace (length done + length untouched - length untouched)%nat
      with (length done) by lia.
    replace (S (length done + length untouched) - length untouched)%nat
      with (S (length done)) by lia.
    reflexivity.
Qed.

(** X4.  The queue of a run that ends carries one progress event per
    processed file, numbered from 1 in the order of the files, and exactly
    one summary, which is its last event and counts all the enumerated
    files. *)
Theorem events_of_a_run pdfs fs st untouched :
  worker pdfs fs = Some (st, untouched) ->
  progress_values (log_q st) = seq 1 (ok st + skipped st + failed st)
  /\ summaries (log_q st)
     = [EvDone (ok st) (skipped st) (failed st) (length pdfs)
          (total_saved st) (total_in_bytes st)]
  /\ exists before,
       log_q st = before
                  ++ [EvDone (ok st) (skipped st) (failed st) (length pdfs)
                        (total_saved st) (total_in_bytes st)]
       /\ summaries before = [].
Proof.
  unfold Orchestrator.worker.
  destruct (worker_loop 1 pdfs (init fs)) as [[st1 u]|] eqn:Hloop; [|discriminate].
  intros [= <- <-]. cbn [ok skipped failed log_q total_in_bytes].
  pose proof (worker_loop_counts _ _ _ _ _ _ _ _ _ _ _ _ _ _ Hloop) as (Hc & _ & _).
  apply worker_loop_events in Hloop as [Hp Hs]. cbn in Hp, Hs, Hc.
  rewrite progress_values_app, summaries_app, Hp, Hs. cbn.
  split; [rewrite app_nil_r; f_equal; lia|]. split; [reflexivity|].
  eexists. split; [reflexivity | exact Hs].
Qed.

(** *** Skipping *)

Lemma prefixes_from_length base p q :
  q ∈ Fs.prefixes_from base p -> (length q <= length base + length p)%nat.
Proof.
  revert base. induction p as [|c p IH]; intros base; cbn [Fs.prefixes_from].
  - intros H. inversion H.
  - intros H. apply elem_of_cons in H as [-> | H].
    + rewrite length_app. cbn. lia.
    + apply IH in H. rewrite length_app in H. cbn in H |- *. lia.
Qed.

Lemma foldl_mkdir_one_frame qs : forall fs fs' q,
  foldl Fs.mkdir_one (Some fs) qs = Some fs' -> q ∉ qs ->
  Fs.lookup_node fs' q = Fs.lookup_node fs q.
Proof.
  induction qs as [|q0 qs IH]; intros fs fs' q; cbn [foldl].
  - intros [= <-] _. reflexivity.
  - destruct (Fs.mkdir_one (Some fs) q0) as [fs1|] eqn:H1;
      [|rewrite foldl_mkdir_one_None; discriminate].
    intros H Hq. apply not_elem_of_cons in Hq as [Hq0 Hq].
    rewrite (IH _ _ _ H Hq). cbn in H1.
    destruct (Fs.lookup_node fs q0) as [[c|]|] eqn:Hl; try discriminate;
      injection H1 as <-; [reflexivity|].
    rewrite lookup_node_insert by (eapply lookup_node_None; exact Hl).
    case_decide; [congruence | reflexivity].
Qed.

(** Making the parents of a path does not touch the path itself. *)
Lemma mkdir_parent_keeps fs (p : Path) fs' :
  Fs.mkdir_parents fs (PurePath.parent p) = Some fs' ->
  Fs.lookup_node fs' p = Fs.lookup_node fs p.
Proof.
  intros H. destruct (decide (p = [])) as [->|Hp]; [reflexivity|].
  apply (foldl_mkdir_one_frame _ _ _ _ H). intros Hin.
  apply prefixes_from_length in Hin. rewrite parent_length in Hin.
  destruct p; [contradiction | cbn in Hin; lia].
Qed.

(** X5.  A file is skipped exactly when its mapped output path exists
    before the job and overwriting is off at that moment; whether the
    output is a file or a directory makes no difference. *)
Theorem skipped_iff_output_exists i pdf st st' rel :
  pdf = in_root ++ rel ->
  job i pdf st = Some st' ->
  (skipped st' = S (skipped st)
   <-> Fs.exists_ (fsys st) (out_dir ++ rel) = true /\ overwrite i = false).
Proof.
  intros Hpdf Hjob.
  destruct (job_Some_safe _ _ _ _ Hjob) as (out_pdf & fs1 & Hsafe).
  pose proof Hsafe as Hs. apply safe_output_path_Some in Hs as (rel' & Hp & Hout & Hmk).
  rewrite Hpdf in Hp. apply app_inv_head in Hp. subst rel'.
  assert (Hex : Fs.exists_ fs1 out_pdf = Fs.exists_ (fsys st) out_pdf).
  { unfold Fs.exists_. rewrite (mkdir_parent_keeps _ _ _ Hmk). reflexivity. }
  rewrite <- Hout, <- Hex. clear Hex Hmk.
  unfold Orchestrator.job in Hjob. rewrite Hsafe in Hjob.
  destruct (Fs.exists_ fs1 out_pdf && negb (overwrite i)) eqn:Hskip.
  - injection Hjob as <-. cbn [skipped]. apply andb_true_iff in Hskip as [He Ho].
    apply negb_true_iff in Ho. split; auto.
  - assert (Hsame : skipped st' = skipped st).
    { destruct (PurePath.with_suffix out_pdf ".tmp.pdf") as [tmp_out|]; [|discriminate].
      cbn zeta in Hjob.
      destruct (compress_pdf _ _ _ _ _) as [[[[rc o] err] fs3]|]; [|discriminate].
      destruct (invocation_ok rc fs3 tmp_out);
        [destruct (try_promote _ _ _ _ _) as [[fs4 tin] [[a b|a b]|]]|];
        injection Hjob as <-; reflexivity. }
    rewrite Hsame. split; [lia|]. intros [He Ho]. rewrite He, Ho in Hskip. discriminate.
Qed.

Lemma worker_loop_overwrite pdfs : forall i st st' untouched,
  (forall j, overwrite j = true) ->
  worker_loop i pdfs st = Some (st', untouched) ->
  skipped st' = skipped st.
Proof.
  induction pdfs as [|pdf rest IH]; intros i st st' untouched Hov;
    cbn [Orchestrator.worker_loop].
  - intros [= <- _]. reflexivity.
  - destruct (stop_flag i); [intros [= <- _]; reflexivity|].
    destruct (job i pdf st) as [st1|] eqn:Hjob; [|discriminate].
    intros Hloop. rewrite (IH _ _ _ _ Hov Hloop).
    destruct (job_Some_safe _ _ _ _ Hjob) as (out_pdf & fs1 & Hsafe).
    destruct (job_invocation _ _ _ _ _ _ Hsafe Hjob) as [(Hs & _) | (Hs & _)];
      [|exact Hs].
    exfalso. unfold Orchestrator.job in Hjob. rewrite Hsafe, Hov, andb_false_r in Hjob.
    destruct (PurePath.with_suffix out_pdf ".tmp.pdf") as [tmp_out|]; [|discriminate].
    cbn zeta in Hjob.
    destruct (compress_pdf _ _ _ _ _) as [[[[rc o] err] fs3]|]; [|discriminate].
    destruct (invocation_ok rc fs3 tmp_out);
      [destruct (try_promote _ _ _ _ _) as [[fs4 tin] [[a b|a b]|]]|];
      injection Hjob as <-; cbn [skipped] in Hs; lia.
Qed.

(** X6.  With overwriting on for the whole run, no file is skipped: every
    processed file is handed to the external tool, and the commands are as
    many as the processed files. *)
Theorem overwrite_never_skips pdfs fs st untouched :
  (forall i, overwrite i = true) ->
  worker pdfs fs = Some (st, untouched) ->
  skipped st = 0%nat
  /\ (length (calls st) + length untouched = length pdfs)%nat.
Proof.
  intros Hov Hrun. unfold Orchestrator.worker in Hrun.
  destruct (worker_loop 1 pdfs (init fs)) as [[st1 u]|] eqn:Hloop; [|discriminate].
  injection Hrun as <- <-. cbn [skipped calls].
  pose proof (worker_loop_invocations _ _ _ _ _ Hloop) as (Hlen & _).
  pose proof (worker_loop_counts _ _ _ _ _ _ _ _ _ _ _ _ _ _ Hloop) as (Hsum & _).
  apply (worker_loop_overwrite _ _ _ _ _ Hov) in Hloop. cbn in Hloop, Hlen, Hsum.
  split; [exact Hloop | lia].
Qed.

(** *** The temporary file *)



(** *** Sizes *)





Lemma st_size_nonneg fs p n : 0 <= dir_st_size -> st_size fs p = Some n -> 0 <= n.
Proof.
  unfold Orchestrator.st_size, Fs.st_size. intros Hd.
  destruct (Fs.lookup_node fs p) as [[c|]|]; intros [= <-]; lia.
Qed.

Lemma try_promote_totals fs total_in pdf out_pdf tmp_out fs' total_in' r :
  0 <= dir_st_size ->
  try_promote fs total_in pdf out_pdf tmp_out = (fs', total_in', r) ->
  total_in <= total_in'
  /\ match r with
     | Some (Copied a _) => 0 <= a
     | Some (Renamed _ b) => 0 <= b
     | None => True
     end.
Proof.
  intros Hd. unfold Orchestrator.try_promote. intros H.
  destruct (st_size fs pdf) as [in_size|] eqn:Hin; [|injection H as _ <- <-; split; [lia|exact I]].
  apply (st_size_nonneg _ _ _ Hd) in Hin.
  destruct (st_size fs tmp_out) as [out_tmp_size|]; [|injection H as _ <- <-; split; [lia|exact I]].
  destruct ((out_tmp_size >=? in_size) && (in_size >? 0)).
  - repeat match type of H with
      | match ?x with _ => _ end = _ => destruct x
      end; injection H as _ <- <-; (split; [lia|]); try exact I. exact Hin.
  - destruct (unlink_if_exists fs out_pdf) as [fs1|];
      [|injection H as _ <- <-; split; [lia|exact I]].
    destruct (Fs.rename fs1 tmp_out out_pdf) as [fs2|];
      [|injection H as _ <- <-; split; [lia|exact I]].
    destruct (st_size fs2 out_pdf) as [out_size|] eqn:Hos;
      injection H as _ <- <-; (split; [lia|]); [|exact I].
    apply (st_size_nonneg _ _ _ Hd) in Hos. exact Hos.
Qed.

Lemma job_totals_grow i pdf st st' :
  0 <= dir_st_size ->
  job i pdf st = Some st' ->
  total_in_bytes st <= total_in_bytes st' /\ total_out_bytes st <= total_out_bytes st'.
Proof.
  intros Hd. unfold Orchestrator.job.
  destruct (safe_output_path _ _ _ _) as [[out_pdf fs1]|]; [|discriminate].
  destruct (Fs.exists_ fs1 out_pdf && negb (overwrite i)).
  { intros [= <-]. cbn. lia. }
  destruct (PurePath.with_suffix _ _) as [tmp_out|]; [|discriminate]. cbn zeta.
  destruct (compress_pdf _ _ _ _ _) as [[[[rc o] err] fs3]|]; [|discriminate].
  destruct (invocation_ok rc fs3 tmp_out).
  - destruct (try_promote _ _ _ _ _) as [[fs4 tin] r] eqn:E.
    apply (try_promote_totals _ _ _ _ _ _ _ _ Hd) in E as [Hin Hr].
    destruct r as [[a b|a b]|]; intros [= <-]; cbn; lia.
  - intros [= <-]. cbn. lia.
Qed.

Lemma worker_loop_totals_grow pdfs : forall i st st' untouched,
  0 <= dir_st_size ->
  worker_loop i pdfs st = Some (st', untouched) ->
  total_in_bytes st <= total_in_bytes st' /\ total_out_bytes st <= total_out_bytes st'.
Proof.
  induction pdfs as [|pdf rest IH]; intros i st st' untouched Hd;
    cbn [Orchestrator.worker_loop].
  - intros [= <- _]. lia.
  - destruct (stop_flag i); [intros [= <- _]; lia|].
    destruct (job i pdf st) as [st1|] eqn:Hjob; [|discriminate].
    intros Hloop. apply (IH _ _ _ _ Hd) in Hloop. apply (job_totals_grow _ _ _ _ Hd) in Hjob.
    lia.
Qed.

(** X9.  Where directories have no negative size, the summary of a run is
    within bounds: neither byte total is negative, the saving is neither
    negative nor more than the input total, and the share that the report
    gives lies between zero and one. *)
Theorem summary_within_bounds pdfs fs st untouched :
  0 <= dir_st_size ->
  worker pdfs fs = Some (st, untouched) ->
  0 <= total_in_bytes st
  /\ 0 <= total_out_bytes st
  /\ 0 <= total_saved st <= total_in_bytes st
  /\ forall ok skipped failed total saved share,
       poll_done (List.last (log_q st) (EvProgress 0))
       = Some (Report ok skipped failed total (Some (saved, share))) ->
       saved = total_saved st
       /\ (Qle (Qmake 0 1) share /\ Qle share (Qmake 1 1)).
Proof.
  intros Hd. unfold Orchestrator.worker.
  destruct (worker_loop 1 pdfs (init fs)) as [[st1 u]|] eqn:Hloop; [|discriminate].
  intros [= <- _]. cbn [total_in_bytes total_out_bytes log_q].
  apply (worker_loop_totals_grow _ _ _ _ _ Hd) in Hloop as [Hin Hout]. cbn in Hin, Hout.
  unfold total_saved. cbn [total_in_bytes total_out_bytes].
  split; [exact Hin|]. split; [exact Hout|]. split; [lia|].
  intros ok0 sk0 f0 tot saved share. rewrite last_last. cbn [poll_done done_event].
  unfold total_saved.
  destruct (total_in_bytes st1 >? 0) eqn:Hpos; [|discriminate].
  intros [= _ _ _ _ <- <-]. apply Z.gtb_lt in Hpos. split; [reflexivity|].
  unfold Qle. cbn [Qnum Qden]. rewrite Z2Pos.id by exact Hpos. lia.
Qed.

(** *** What ends the worker *)

Lemma name_app (p rel : Path) : rel <> [] -> PurePath.name (p ++ rel) = PurePath.name rel.
Proof.
  intros Hrel. unfold PurePath.name.
  rewrite (parent_name rel Hrel), app_assoc, !last_last. reflexivity.
Qed.


(** *** The three paths of a job *)

(** X11.  The output path mirrors the input path: it lies beneath the
    output root as the file lies beneath the input root, its parent
    directory is there once it is computed, and computing it makes
    directories only.  A file that is not beneath the input root has no
    output path. *)
Theorem output_path_mirrors_input fs pdf :
  match safe_output_path fs out_dir in_root pdf with
  | Some (out_pdf, fs1) =>
      PurePath.relative_to out_pdf out_dir = PurePath.relative_to pdf in_root
      /\ (exists rel, pdf = in_root ++ rel /\ out_pdf = out_dir ++ rel)
      /\ Fs.is_dir fs1 (PurePath.parent out_pdf) = true
      /\ Fs.grows_by_dirs fs fs1
      /\ Fs.lookup_node fs1 out_pdf = Fs.lookup_node fs out_pdf
  | None =>
      PurePath.relative_to pdf in_root = None
      \/ exists rel, PurePath.relative_to pdf in_root = Some rel
                     /\ Fs.mkdir_parents fs (PurePath.parent (out_dir ++ rel)) = None
  end.
Proof.
  destruct (safe_output_path fs out_dir in_root pdf) as [[out_pdf fs1]|] eqn:Hsafe.
  - pose proof (safe_output_path_grows _ _ _ _ _ _ Hsafe) as [G D].
    apply safe_output_path_Some in Hsafe as (rel & -> & -> & Hmk).
    rewrite !relative_to_app. split; [reflexivity|]. split; [eauto|].
    split; [exact D|]. split; [exact G|]. apply mkdir_parent_keeps, Hmk.
  - unfold safe_output_path in Hsafe.
    destruct (PurePath.relative_to pdf in_root) as [rel|]; [|left; reflexivity].
    right. exists rel. split; [reflexivity|]. unfold PurePath.joinpath in Hsafe.
    destruct (Fs.mkdir_parents fs (PurePath.parent (out_dir ++ rel))); [discriminate|].
    reflexivity.
Qed.

(** X12.  Two files never share an output path, and the paths of a job
    never coincide: for roots that differ and a file beneath the input
    root, the file, its output path and its temporary path are three
    different paths, the last two in the same directory. *)
Theorem job_paths_are_distinct fs fs' pdf pdf' out_pdf out_pdf' fs1 fs1' tmp_out :
  safe_output_path fs out_dir in_root pdf = Some (out_pdf, fs1) ->
  safe_output_path fs' out_dir in_root pdf' = Some (out_pdf', fs1') ->
  PurePath.with_suffix out_pdf ".tmp.pdf" = Some tmp_out ->
  (out_pdf = out_pdf' -> pdf = pdf')
  /\ tmp_out <> out_pdf
  /\ PurePath.parent tmp_out = PurePath.parent out_pdf
  /\ (in_root <> out_dir -> pdf <> out_pdf)
  /\ (in_root <> out_dir -> pdf <> in_root -> pdf <> tmp_out).
Proof.
  intros Hsafe Hsafe' Htmp. split.
  { apply safe_output_path_Some in Hsafe as (rel & -> & -> & _).
    apply safe_output_path_Some in Hsafe' as (rel' & -> & -> & _).
    intros Heq. apply app_inv_head in Heq. subst. reflexivity. }
  split; [eapply TmpPath.with_suffix_tmp_ne; exact Htmp|].
  split; [eapply with_suffix_parent; exact Htmp|].
  split; intros Hroots;
    destruct (job_paths_differ _ _ _ _ _ _ _ Hroots Hsafe Htmp) as (H1 & _ & _ & H2);
    assumption.
Qed.

(** *** A promotion that raises *)

Lemma unlink_if_exists_dir fs p :
  Fs.is_dir fs p = true -> unlink_if_exists fs p = None.
Proof.
  intros Hd. apply is_dir_true in Hd.
  unfold unlink_if_exists, Fs.exists_, Fs.unlink. rewrite Hd. reflexivity.
Qed.

(** X21.  A job whose promotion raises because a directory sits at the
    output path is recorded as failed and logged as a write failure; the
    directory stays, the temporary file is removed, nothing is added to
    the output total, but the size of the input has already been added to
    the input total. *)
Theorem failed_promotion_counts_input
    i pdf st out_pdf fs1 tmp_out out err fs3 in_size out_tmp_size :
  safe_output_path (fsys st) out_dir in_root pdf = Some (out_pdf, fs1) ->
  Fs.exists_ fs1 out_pdf && negb (overwrite i) = false ->
  PurePath.with_suffix out_pdf ".tmp.pdf" = Some tmp_out ->
  compress_pdf gs pdf tmp_out preset (unlink_quietly fs1 tmp_out)
    = Some (0, out, err, fs3) ->
  st_size fs3 pdf = Some in_size ->
  st_size fs3 tmp_out = Some out_tmp_size ->
  0 < out_tmp_size ->
  Fs.is_dir fs3 out_pdf = true ->
  exists st',
    job i pdf st = Some st'
    /\ failed st' = S (failed st) /\ ok st' = ok st /\ skipped st' = skipped st
    /\ total_in_bytes st' = total_in_bytes st + in_size
    /\ total_out_bytes st' = total_out_bytes st
    /\ log_q st' = log_q st ++ [EvLog (MsgFailWrite (PurePath.name pdf)); EvProgress i]
    /\ fsys st' = unlink_quietly fs3 tmp_out
    /\ Fs.is_dir (fsys st') out_pdf = true
    /\ Fs.is_file (fsys st') tmp_out = false.
Proof.
  intros Hsafe Hskip Htmp Hrun Hin Hsz Hpos Hdir.
  pose proof (TmpPath.with_suffix_tmp_ne _ _ Htmp) as Hto.
  assert (Hok : invocation_ok 0 fs3 tmp_out = true).
  { unfold Orchestrator.invocation_ok. rewrite Hsz.
    assert (Hex : Fs.exists_ fs3 tmp_out = true).
    { unfold Orchestrator.st_size, Fs.st_size in Hsz. unfold Fs.exists_.
      destruct (Fs.lookup_node fs3 tmp_out); [reflexivity | discriminate]. }
    rewrite Hex. cbn. apply Z.gtb_lt. lia. }
  assert (Hp : try_promote fs3 (total_in_bytes st) pdf out_pdf tmp_out
               = (fs3, total_in_bytes st + in_size, None)).
  { unfold Orchestrator.try_promote.
    rewrite Hin, Hsz, (unlink_if_exists_dir _ _ Hdir).
    destruct ((out_tmp_size >=? in_size) && (in_size >? 0)); reflexivity. }
  unfold Orchestrator.job. rewrite Hsafe, Hskip, Htmp. cbn zeta. rewrite Hrun, Hok, Hp.
  eexists. split; [reflexivity|].
  cbn [ok skipped failed total_in_bytes total_out_bytes fsys log_q].
  repeat match goal with |- _ /\ _ => split end; try reflexivity.
  - apply is_dir_true. rewrite unlink_quietly_frame by (intros Heq; apply Hto; auto).
    apply is_dir_true, Hdir.
  - apply unlink_quietly_not_file.
Qed.

End Run.

End OrchestratorMore.


(** * Further properties of validation and of the start of a run *)

Module StartFacts.
Import Validation Enumerator Start Orchestrator PurePathFacts FsFacts.

Section Validate.

Variable which : string -> option string.
Variable path_of_str : string -> Path.
Variable resolve : Path -> Path.

#[local] Abbreviation validate := (validate which path_of_str resolve).
#[local] Abbreviation find_in := (find_in which).
#[local] Abbreviation find_ghostscript := (find_ghostscript which).
#[local] Abbreviation start := (start which path_of_str resolve).

(** *** The search for Ghostscript *)

#[local] Abbreviation not_found :=
  (fun name => which name = None \/ which name = Some "").

Lemma find_in_None names : find_in names = None <-> Forall not_found names.
Proof.
  induction names as [|name names IH]; cbn [Validation.find_in].
  - split; [constructor | reflexivity].
  - rewrite Forall_cons. destruct (which name) as [p|] eqn:Hw.
    + case_bool_decide as Hp.
      * subst p. rewrite IH. split; [auto | intros [_ H]; exact H].
      * split; [discriminate|]. intros [[H|H] _]; congruence.
    + rewrite IH. split; [auto | intros [_ H]; exact H].
Qed.

Lemma find_in_Some names p :
  find_in names = Some p
  <-> exists before name after,
        names = before ++ name :: after
        /\ Forall not_found before
        /\ which name = Some p /\ p <> "".
Proof.
  induction names as [|name names IH]; cbn [Validation.find_in].
  - split; [discriminate|]. intros (before & n & after & H & _).
    destruct before; discriminate.
  - split.
    + intros H. destruct (which name) as [p0|] eqn:Hw.
      * case_bool_decide as Hp.
        -- apply IH in H as (before & n & after & -> & Hb & Hn).
           exists (name :: before), n, after. split; [reflexivity|].
           split; [constructor; [right; congruence | exact Hb] | exact Hn].
        -- injection H as ->. exists [], name, names. repeat split; auto.
      * apply IH in H as (before & n & after & -> & Hb & Hn).
        exists (name :: before), n, after. split; [reflexivity|].
        split; [constructor; [left; exact Hw | exact Hb] | exact Hn].
    + intros (before & n & after & Heq & Hb & Hn & Hp).
      destruct before as [|b before]; cbn in Heq; injection Heq as -> ->.
      * rewrite Hn. rewrite bool_decide_eq_false_2 by exact Hp. reflexivity.
      * apply Forall_cons in Hb as [Hb0 Hb].
        assert (Hrest : find_in (before ++ n :: after) = Some p).
        { apply IH. exists before, n, after. auto. }
        destruct Hb0 as [-> | ->]; [exact Hrest|].
        rewrite bool_decide_eq_true_2 by reflexivity. exact Hrest.
Qed.

(** X13.  The search for Ghostscript goes through the four candidate
    names in order and returns what [which] gives for the first one that
    it finds; it returns nothing exactly when it finds none of them. *)
Theorem find_ghostscript_first_match :
  (forall p,
     find_ghostscript = Some p
     <-> exists before name after,
           GS_CANDIDATES = before ++ name :: after
           /\ Forall (fun n => which n = None \/ which n = Some "") before
           /\ which name = Some p /\ p <> "")
  /\ (find_ghostscript = None
      <-> Forall (fun n => which n = None \/ which n = Some "") GS_CANDIDATES).
Proof.
  split; [intros p; apply find_in_Some | apply find_in_None].
Qed.

(** *** Validation *)




(** X15.  An accepted form keeps the Ghostscript of the entry when that
    entry names an existing path, and takes the one that the search finds
    in every other case, also when the entry names a path that is not
    there. *)
Theorem validate_gs_choice fs input_text output_text gs_text v fs' :
  validate fs input_text output_text gs_text = Some (v, fs') ->
  (PyStr.strip gs_text <> "" ->
   Fs.exists_ fs (path_of_str (PyStr.strip gs_text)) = true ->
   v_gs v = PyStr.strip gs_text)
  /\ (PyStr.strip gs_text = ""
      \/ Fs.exists_ fs (path_of_str (PyStr.strip gs_text)) = false ->
      find_ghostscript = Some (v_gs v)).
Proof.
  unfold Validation.validate. cbn zeta.
  destruct (negb (Fs.exists_ fs _)); [discriminate|].
  destruct (Fs.is_file fs _ && _); [discriminate|].
  destruct (negb (Fs.is_file fs _) && _); [discriminate|].
  destruct (negb (Fs.is_dir fs _)); [discriminate|].
  set (gs := PyStr.strip gs_text).
  case_bool_decide as Hgs; cbn [orb].
  - destruct (Validation.find_ghostscript which) as [g|]; [|discriminate].
    destruct (avoid_input_output _ _ _ _ _). intros [= <- _]. cbn [v_gs].
    split; [contradiction | reflexivity].
  - destruct (Fs.exists_ fs (path_of_str gs)) eqn:Hex; cbn [negb].
    + destruct (avoid_input_output _ _ _ _ _). intros [= <- _]. cbn [v_gs].
      split; [reflexivity | intros [H|H]; [contradiction | discriminate]].
    + destruct (Validation.find_ghostscript which) as [g|]; [|discriminate].
      destruct (avoid_input_output _ _ _ _ _). intros [= <- _]. cbn [v_gs].
      split; [discriminate | reflexivity].
Qed.

(** X16.  Validation writes no file and removes nothing: the file system
    it leaves is the one it found, with directories added at most.  When
    the two resolved roots differ it changes nothing at all and keeps the
    output folder of the form; and in every case the two roots that it
    hands to the worker are different paths. *)
Theorem validate_effects fs input_text output_text gs_text v fs' :
  validate fs input_text output_text gs_text = Some (v, fs') ->
  v_in_path v = path_of_str (PyStr.strip input_text)
  /\ Fs.grows_by_dirs fs fs'
  /\ (resolve (worker_in_root v) <> resolve (path_of_str (PyStr.strip output_text)) ->
      v_out_dir v = path_of_str (PyStr.strip output_text) /\ fs' = fs)
  /\ worker_in_root v <> v_out_dir v.
Proof.
  intros H. pose proof (ValidationFacts.validated_roots_differ _ _ _ _ _ _ _ _ _ H) as Hd.
  apply ValidationFacts.validate_Some in H as (Hin & _ & Hroot & Havoid & _ & Hout).
  cbn zeta in *.
  unfold Validation.avoid_input_output, PurePath.joinpath in Havoid. cbn zeta in Havoid.
  rewrite <- Hroot in Havoid.
  split; [exact Hin|].
  case_bool_decide as Hres; injection Havoid as Ho Hfs.
  - destruct (Fs.mkdir_parents fs _) as [fs1|] eqn:Hmk; cbn in Hfs; subst fs'.
    + split; [apply mkdir_parents_Some in Hmk as [G _]; exact G|].
      split; [intros Hne; contradiction | exact Hd].
    + split; [apply grows_by_dirs_refl|].
      split; [intros Hne; contradiction | exact Hd].
  - subst fs'. split; [apply grows_by_dirs_refl|]. split; [auto | exact Hd].
Qed.

(** *** The start of a run *)

Lemma validate_file_suffix fs input_text output_text gs_text v fs' :
  validate fs input_text output_text gs_text = Some (v, fs') ->
  v_is_file v = true ->
  has_pdf_suffix (PurePath.name (v_in_path v)) = true.
Proof.
  unfold Validation.validate. cbn zeta.
  destruct (negb (Fs.exists_ fs _)); [discriminate|].
  destruct (Fs.is_file fs _) eqn:Hf; cbn [andb negb].
  - case_bool_decide as Hsuf; [|discriminate]. cbn [negb].
    destruct (negb (Fs.is_dir fs _)); [discriminate|].
    match goal with |- match ?o with _ => _ end = _ -> _ => destruct o end; [|discriminate].
    destruct (avoid_input_output _ _ _ _ _). intros [= <- _] _. cbn [v_in_path].
    unfold has_pdf_suffix. apply bool_decide_eq_true. exact Hsuf.
  - destruct (negb (Fs.is_dir fs _)); [discriminate|].
    destruct (negb (Fs.is_dir fs _)); [discriminate|].
    match goal with |- match ?o with _ => _ end = _ -> _ => destruct o end; [|discriminate].
    destruct (avoid_input_output _ _ _ _ _). intros [= <- _]. cbn [v_is_file]. discriminate.
Qed.

Lemma is_pdf_name_nonempty fn : is_pdf_name fn = true -> fn <> "".
Proof. intros H ->. discriminate. Qed.

Lemma has_pdf_suffix_nonempty fn : has_pdf_suffix fn = true -> fn <> "".
Proof. intros H ->. discriminate. Qed.

Lemma listed_files_launched root t recursive l :
  list_pdfs root t recursive = Some l -> Forall (launched_file root) l.
Proof.
  intros Hl. apply Forall_forall. intros p Hp. destruct recursive.
  - assert (Hd : p ∈ default [] (list_pdfs root t true)) by (rewrite Hl; exact Hp).
    apply EnumeratorFacts.elem_of_list_pdfs_recursive in Hd as (rel & -> & Hb & Hpdf).
    exists rel. split; [destruct Hb; discriminate|]. split; [reflexivity|].
    split; [apply is_pdf_name_nonempty, Hpdf | apply EnumeratorFacts.is_pdf_name_spec, Hpdf].
  - destruct t as [|es]; [discriminate|]. injection Hl as <-.
    apply list_elem_of_fmap in Hp as (fn & -> & Hfn).
    apply list_elem_of_filter in Hfn as [Hs _]. exists [fn]. rewrite name_snoc.
    split; [discriminate|]. split; [reflexivity|].
    split; [apply has_pdf_suffix_nonempty, Hs | apply EnumeratorFacts.has_pdf_suffix_ends, Hs].
Qed.

Lemma start_Started alive fs listing input_text output_text gs_text recursive choice l fs' :
  start alive fs listing input_text output_text gs_text recursive choice = Started l fs' ->
  alive = false
  /\ exists v,
       validate fs input_text output_text gs_text = Some (v, fs')
       /\ l = Launch (worker_in_root v) (v_out_dir v) (v_gs v) (l_pdfs l) (preset_value choice)
       /\ l_pdfs l <> []
       /\ (if v_is_file v then Some [v_in_path v]
           else list_pdfs (v_in_path v) listing recursive) = Some (l_pdfs l).
Proof.
  unfold Start.start. destruct alive; [discriminate|].
  destruct (validate fs input_text output_text gs_text) as [[v fs1]|]; [|discriminate].
  destruct (if v_is_file v then _ else _) as [[|p pdfs]|] eqn:Hpdfs; try discriminate.
  intros [= <- <-]. split; [reflexivity|]. exists v. cbn [l_pdfs].
  split; [reflexivity|]. split; [reflexivity|]. split; [discriminate | exact Hpdfs].
Qed.

(** X17.  A run that [start] launches is well formed: no worker was
    alive, there is at least one file, the two roots are different paths,
    the preset is the one of the choice (or "/ebook"), nothing but
    directories was added to the file system, and every file lies beneath
    the input root and has a name that ends in ".pdf" up to case, so that
    computing its output path and its temporary path cannot raise. *)
Theorem start_launches_well_formed_runs
    alive fs listing input_text output_text gs_text recursive choice l fs' :
  start alive fs listing input_text output_text gs_text recursive choice = Started l fs' ->
  alive = false
  /\ l_pdfs l <> []
  /\ l_in_root l <> l_out_dir l
  /\ l_preset l = preset_value choice
  /\ Fs.grows_by_dirs fs fs'
  /\ Forall (launched_file (l_in_root l)) (l_pdfs l)
  /\ Forall (fun p => exists rel tmp_out,
                 PurePath.relative_to p (l_in_root l) = Some rel
                 /\ PurePath.with_suffix (l_out_dir l ++ rel) ".tmp.pdf" = Some tmp_out)
            (l_pdfs l).
Proof.
  intros H. apply start_Started in H as (Halive & v & Hv & Hl & Hne & Hpdfs).
  pose proof (ValidationFacts.validated_roots_differ _ _ _ _ _ _ _ _ _ Hv) as Hroots.
  assert (Hfiles : Forall (launched_file (worker_in_root v)) (l_pdfs l)).
  { unfold worker_in_root. destruct (v_is_file v) eqn:Hf.
    - injection Hpdfs as <-. constructor; [|constructor].
      pose proof (validate_file_suffix _ _ _ _ _ _ Hv Hf) as Hs.
      pose proof (has_pdf_suffix_nonempty _ Hs) as Hn.
      assert (Hp : v_in_path v <> []) by (intros Heq; apply Hn; rewrite Heq; reflexivity).
      exists [PurePath.name (v_in_path v)]. split; [discriminate|].
      split; [apply parent_name, Hp|]. split; [exact Hn|].
      apply EnumeratorFacts.has_pdf_suffix_ends, Hs.
    - eapply listed_files_launched. exact Hpdfs. }
  assert (G : Fs.grows_by_dirs fs fs').
  { pose proof Hv as Hv'.
    apply ValidationFacts.validate_Some in Hv' as (_ & _ & Hroot & Havoid & _).
    cbn zeta in *. unfold Validation.avoid_input_output in Havoid. cbn zeta in Havoid.
    case_bool_decide; injection Havoid as _ ->; [|apply grows_by_dirs_refl].
    destruct (Fs.mkdir_parents fs _) as [fs1|] eqn:Hmk; cbn; [|apply grows_by_dirs_refl].
    apply mkdir_parents_Some in Hmk as [G _]. exact G. }
  rewrite Hl. cbn [l_in_root l_out_dir l_preset l_pdfs].
  repeat match goal with |- _ /\ _ => split end; auto.
  eapply Forall_impl; [exact Hfiles|]. intros p (rel & Hrel & -> & Hn & _).
  rewrite relative_to_app. exists rel. unfold PurePath.with_suffix.
  rewrite OrchestratorMore.name_app by exact Hrel.
  rewrite OrchestratorMore.name_app in Hn by exact Hrel.
  rewrite bool_decide_eq_false_2 by exact Hn. eauto.
Qed.

(** X18.  In single-file mode the subfolder box and the listing of the
    folder play no part: the worker gets the file alone, with the folder
    of the file as input root, and the output path of the file is the
    output root followed by the name of the file. *)
Theorem single_file_mode
    alive fs listing input_text output_text gs_text recursive choice l fs' :
  start alive fs listing input_text output_text gs_text recursive choice = Started l fs' ->
  Fs.is_file fs (path_of_str (PyStr.strip input_text)) = true ->
  l_pdfs l = [path_of_str (PyStr.strip input_text)]
  /\ l_in_root l = PurePath.parent (path_of_str (PyStr.strip input_text))
  /\ (forall fsx out_pdf fs1,
        safe_output_path fsx (l_out_dir l) (l_in_root l)
          (path_of_str (PyStr.strip input_text)) = Some (out_pdf, fs1) ->
        out_pdf = l_out_dir l
                  ++ [PurePath.name (path_of_str (PyStr.strip input_text))])
  /\ (forall listing' recursive',
        start alive fs listing' input_text output_text gs_text recursive' choice
        = Started l fs').
Proof.
  intros H Hfile. pose proof H as H0.
  apply start_Started in H as (Halive & v & Hv & Hl & Hne & Hpdfs).
  pose proof Hv as Hv'.
  apply ValidationFacts.validate_Some in Hv' as (Hin & Hisf & Hroot & _).
  cbn zeta in *. rewrite Hfile in Hisf. rewrite Hisf in Hpdfs. injection Hpdfs as Hpdfs.
  rewrite Hin in Hpdfs.
  assert (Hr : l_in_root l = PurePath.parent (path_of_str (PyStr.strip input_text))).
  { rewrite Hl. cbn [l_in_root]. unfold worker_in_root. rewrite Hisf, Hin. reflexivity. }
  split; [symmetry; exact Hpdfs|]. split; [exact Hr|]. split.
  - intros fsx out_pdf fs1 Hsafe.
    apply OrchestratorFacts.safe_output_path_Some in Hsafe as (rel & Hp & -> & _).
    f_equal. apply is_file_true in Hfile as [c Hc].
    apply lookup_node_File in Hc. rewrite (parent_name _ Hc), Hr in Hp at 1.
    apply app_inv_head in Hp. symmetry. exact Hp.
  - intros listing' recursive'. unfold Start.start in H0 |- *.
    rewrite Halive in *. rewrite Hv in *. rewrite Hisf in *. exact H0.
Qed.

End Validate.

End StartFacts.


(** * Further properties of the enumeration *)

Module EnumeratorMore.
Import Enumerator PurePathFacts EnumeratorFacts.

Lemma filter_sublist {A} (P Q : A -> Prop) `{!forall x, Decision (P x)}
    `{!forall x, Decision (Q x)} (l : list A) :
  (forall x, P x -> Q x) -> filter P l `sublist_of` filter Q l.
Proof.
  intros HPQ. induction l as [|x l IH]; [constructor|].
  rewrite !filter_cons. destruct (decide (P x)) as [HP|HP].
  - destruct (decide (Q x)) as [HQ|HQ]; [|exfalso; apply HQ, HPQ, HP].
    constructor. exact IH.
  - destruct (decide (Q x)); [constructor|]; exact IH.
Qed.

Lemma has_pdf_suffix_is_pdf_name fn : has_pdf_suffix fn = true -> is_pdf_name fn = true.
Proof. intros H. apply is_pdf_name_spec, has_pdf_suffix_ends, H. Qed.

(** X19.  What the flat enumeration gives, the recursive one gives too,
    and in the same order; the converse fails even for the files of the
    folder itself, since a file named ".pdf" ends in ".pdf" and has no
    suffix. *)
Theorem flat_enumeration_within_recursive root es :
  default [] (list_pdfs root (TDir es) false)
    `sublist_of` default [] (list_pdfs root (TDir es) true)
  /\ default [] (list_pdfs root (TDir [(".pdf", TFile)]) false) = []
  /\ default [] (list_pdfs root (TDir [(".pdf", TFile)]) true) = [root ++ [".pdf"]].
Proof.
  split; [|split; reflexivity].
  rewrite list_pdfs_TDir. cbn [list_pdfs default].
  apply sublist_inserts_r. apply (fmap_sublist (fun fn => root ++ [fn])).
  apply filter_sublist. intros fn. apply has_pdf_suffix_is_pdf_name.
Qed.

(** *** No file twice *)

Lemma filenames_sublist es : filenames es `sublist_of` map fst es.
Proof. unfold filenames. apply (fmap_sublist fst). apply sublist_filter. Qed.

Lemma NoDup_snoc_paths (root : Path) (names : list string) :
  NoDup names -> NoDup (map (fun fn => root ++ [fn]) names).
Proof.
  induction 1 as [|fn names Hfn _ IH]; cbn [map]; constructor; [|exact IH].
  intros Hin. apply list_elem_of_fmap in Hin as (fn' & Heq & Hin).
  apply app_inv_head in Heq. injection Heq as ->. contradiction.
Qed.

Lemma elem_of_subdir_listing root d sub p :
  p ∈ default [] (list_pdfs (root ++ [d]) sub true) ->
  exists rel, rel <> [] /\ p = root ++ d :: rel.
Proof.
  intros H. apply elem_of_list_pdfs_recursive in H as (rel & -> & Hb & _).
  exists rel. split; [destruct Hb; discriminate|]. rewrite <- app_assoc. reflexivity.
Qed.

Lemma NoDup_subdir_listings root es :
  NoDup (map fst es) ->
  Forall (fun e => forall top, NoDup (default [] (list_pdfs top e.2 true))) es ->
  NoDup (flat_map (fun e => default [] (list_pdfs (root ++ [e.1]) e.2 true)) es).
Proof.
  induction es as [|[d sub] es IH]; intros Hnames Hsubs; [constructor|].
  cbn [flat_map fst snd]. cbn [map fst] in Hnames.
  apply NoDup_cons in Hnames as [Hd Hnames]. apply Forall_cons in Hsubs as [Hsub Hsubs].
  apply NoDup_app. split; [apply Hsub|]. split; [|apply IH; assumption].
  intros p Hp Hrest. apply elem_of_subdir_listing in Hp as (rel & _ & ->).
  apply list_elem_of_In, in_flat_map in Hrest as ([d' sub'] & Hin & Hp').
  apply list_elem_of_In in Hin, Hp'. cbn [fst snd] in Hp'.
  apply elem_of_subdir_listing in Hp' as (rel' & _ & Heq).
  apply app_inv_head in Heq. injection Heq as -> _.
  apply Hd. apply list_elem_of_fmap. exists (d', sub'). auto.
Qed.

Lemma NoDup_list_pdfs_recursive t :
  unique_names t -> forall top, NoDup (default [] (list_pdfs top t true)).
Proof.
  induction t as [|es IH] using tree_ind; intros Hu top.
  - rewrite list_pdfs_TFile. constructor.
  - inversion Hu as [|es' Hnames Hsubs]; subst.
    rewrite list_pdfs_TDir. apply NoDup_app. split; [|split].
    + apply NoDup_snoc_paths. apply NoDup_filter.
      apply (sublist_NoDup _ _ Hnames (filenames_sublist es)).
    + intros p Hp Hrest. apply list_elem_of_fmap in Hp as (fn & -> & _).
      apply list_elem_of_In, in_flat_map in Hrest as ([d sub] & _ & Hp').
      apply list_elem_of_In in Hp'. cbn [fst snd] in Hp'.
      apply elem_of_subdir_listing in Hp' as (rel & Hrel & Heq).
      apply app_inv_head in Heq. injection Heq as _ Heq. symmetry in Heq. contradiction.
    + apply NoDup_subdir_listings; [exact Hnames|].
      rewrite Forall_forall in IH, Hsubs |- *. intros e He top'. apply IH; auto.
Qed.

(** X20.  On a snapshot where no directory has two entries of the same
    name, no file is enumerated twice, in either mode: the worker
    processes every file once. *)
Theorem no_file_enumerated_twice root t recursive :
  unique_names t ->
  NoDup (default [] (list_pdfs root t recursive)).
Proof.
  intros Hu. destruct recursive; [apply NoDup_list_pdfs_recursive, Hu|].
  destruct t as [|es]; [constructor|]. cbn [list_pdfs default].
  inversion Hu as [|es' Hnames _]; subst.
  apply NoDup_snoc_paths. apply NoDup_filter.
  apply (sublist_NoDup _ _ Hnames (filenames_sublist es)).
Qed.

End EnumeratorMore.

(** ** The theorems on concrete runs *)

Module Runs.
Import Orchestrator Scenario.

(** An equation between closed terms, decided by evaluation. *)
Ltac by_evaluation :=
  match goal with
  | |- ?x = ?y => apply (bool_decide_eq_true_1 (x = y)); vm_compute; reflexivity
  end.

(** A closed optional value that evaluates to some value. *)
Ltac some_by_evaluation :=
  match goal with
  | |- is_Some ?o => apply (bool_decide_unpack (is_Some o)); vm_compute; exact I
  end.

(** A skipped job: the output of [a.pdf] is there and overwriting is
    off. *)
Lemma skip_rule_witness :
  exists st',
    job 0 posix_str (gs_writes 3 0 "") never in_root out_dir "gs" "/ebook"
      1%nat a_pdf (init fs_done) = Some st'
    /\ skipped st' = 1%nat /\ calls st' = [].
Proof.
  destruct (OrchestratorFacts.skip_rule 0 posix_str (gs_writes 3 0 "") never
              in_root out_dir "gs" "/ebook" 1%nat a_pdf (init fs_done) out_a fs_done)
    as (st' & Hjob & Hsk & _ & _ & _ & _ & _ & Hcalls & _).
  - by_evaluation.
  - by_evaluation.
  - reflexivity.
  - exists st'. auto.
Defined.

(** A failed job: Ghostscript ends with code 1 and writes nothing. *)
Lemma failure_handling_witness :
  exists st',
    job 0 posix_str (gs_fails 1 "  boom  ") always in_root out_dir "gs" "/ebook"
      1%nat a_pdf (init fs_fresh) = Some st'
    /\ failed st' = 1%nat
    /\ log_q st' = [EvLog (MsgFailGs "a.pdf" 1); EvLog (MsgStderr "boom"); EvProgress 1].
Proof.
  destruct (OrchestratorFacts.failure_handling 0 posix_str (gs_fails 1 "  boom  ")
              never always in_root out_dir "gs" "/ebook" 1%nat a_pdf (init fs_fresh)
              out_a fs_fresh tmp_a 1 "" "  boom  " fs_fresh [])
    as (st' & Hjob & Hf & _ & _ & _ & _ & Hlog & _).
  - by_evaluation.
  - by_evaluation.
  - by_evaluation.
  - by_evaluation.
  - left. discriminate.
  - exists st'. split; [exact Hjob|]. split; [exact Hf|]. rewrite Hlog. reflexivity.
Defined.


(** The same run, stopped while the first file is processed. *)
Lemma stop_semantics_witness :
  exists st,
    worker 0 posix_str (gs_any 3) (stop_during 1) always in_root out_dir "gs" "/ebook"
      [a_pdf; b_pdf] fs_two = Some (st, [b_pdf])
    /\ outcomes (log_q st) = 1%nat
    /\ total_in_bytes st = 5.
Proof.
  pose proof (OrchestratorFacts.stop_semantics 0 posix_str (gs_any 3) (stop_during 1)
                always in_root out_dir "gs" "/ebook" [a_pdf; b_pdf] 1 fs_two) as H.
  destruct (worker 0 posix_str (gs_any 3) (fun _ => false) always in_root out_dir
              "gs" "/ebook" (take 1 [a_pdf; b_pdf]) fs_two) as [[st_k u]|] eqn:Hk.
  - destruct H as (st & Hrun & _ & _ & _ & Hin & _ & _ & _ & Hout & _).
    + intros i Hi. assert (i = 1%nat) as -> by lia. reflexivity.
    + reflexivity.
    + simpl. lia.
    + exists st. split; [exact Hrun|]. split; [exact Hout|]. rewrite Hin.
      assert (H5 : (fun r => total_in_bytes r.1)
                     <$> worker 0 posix_str (gs_any 3) (fun _ => false) always in_root
                           out_dir "gs" "/ebook" (take 1 [a_pdf; b_pdf]) fs_two
                   = Some 5) by by_evaluation.
      rewrite Hk in H5. injection H5 as H5. exact H5.
  - exfalso.
    assert (Hs : is_Some (worker 0 posix_str (gs_any 3) (fun _ => false) always in_root
                            out_dir "gs" "/ebook" (take 1 [a_pdf; b_pdf]) fs_two))
      by some_by_evaluation.
    rewrite Hk in Hs. destruct Hs as [r Hr]. discriminate Hr.
Defined.




(** The output folder of the form is the input folder. *)
Lemma output_root_redirect_witness :
  exists v fs',
    Validation.validate no_which one_component resolve_self fs_gs " in " "in" "gs"
    = Some (v, fs')
    /\ Validation.v_out_dir v = ["in"; "_compressed"]
    /\ Fs.is_dir fs' ["in"; "_compressed"] = true.
Proof.
  assert (Hv : Validation.validate no_which one_component resolve_self fs_gs
                 " in " "in" "gs"
               = Some (Validation.Validated ["in"] ["in"; "_compressed"] "gs" false,
                       <[ ["in"; "_compressed"] := Dir ]> fs_gs)) by by_evaluation.
  eexists _, _. split; [exact Hv|].
  destruct (ValidationFacts.output_root_redirect _ _ _ _ _ _ _ _ _ Hv)
    as (Hout & Hmk & _).
  - by_evaluation.
  - split; [reflexivity | by_evaluation].
Defined.

(** A label that the form does not offer. *)
Lemma implicit_preset_default_witness : preset_value "Ultra" = "/ebook".
Proof.
  apply (PresetFacts.implicit_preset_default "Ultra").
  cbn. rewrite !not_elem_of_cons. repeat split; try discriminate. apply not_elem_of_nil.
Defined.

(** *** Where the specification says more than the program does *)




End Runs.


(** ** The further properties on concrete runs *)

Module MoreRuns.
Import Orchestrator Trace Scenario FsFacts.

Ltac by_evaluation :=
  match goal with
  | |- ?x = ?y => apply (bool_decide_eq_true_1 (x = y)); vm_compute; reflexivity
  end.

Ltac by_decision :=
  match goal with
  | |- ?P => apply (bool_decide_unpack P); vm_compute; exact I
  end.

Ltac some_by_evaluation :=
  match goal with
  | |- is_Some ?o => apply (bool_decide_unpack (is_Some o)); vm_compute; exact I
  end.

#[local] Abbreviation job_a gsx ow fs :=
  (job 0 posix_str gsx ow in_root out_dir "gs" "/ebook" 1%nat a_pdf (init fs)).

#[local] Abbreviation run_two stop :=
  (worker 0 posix_str (gs_any 3) stop always in_root out_dir "gs" "/ebook"
     [a_pdf; b_pdf] fs_two).


Lemma gs_any_keeps n q : q <> tmp_a -> q <> tmp_b -> tool_keeps (gs_any n) q.
Proof.
  intros Ha Hb cmd fs rc out err fs'. unfold gs_any.
  destruct (cmd !! 7%nat); [|intros [= _ _ _ <-]; reflexivity].
  repeat case_bool_decide; intros [= _ _ _ <-]; try reflexivity;
    rewrite lookup_node_insert by discriminate; case_decide; congruence.
Qed.


(** The run over two files leaves the first input as it was. *)
Lemma run_keeps_outside_output_root_witness :
  exists st untouched,
    run_two never = Some (st, untouched)
    /\ Fs.lookup_node (fsys st) a_pdf = Some (File (bytes 5)).
Proof.
  assert (Hs : is_Some (run_two never)) by some_by_evaluation.
  destruct Hs as [[st untouched] Hrun]. exists st, untouched. split; [exact Hrun|].
  refine (proj1 (OrchestratorMore.run_keeps_outside_output_root
                   0 posix_str (gs_any 3) never always in_root out_dir "gs" "/ebook"
                   a_pdf [a_pdf; b_pdf] fs_two st untouched _ _ _ Hrun) _ _).
  - by_evaluation.
  - apply gs_any_keeps; discriminate.
  - repeat constructor; discriminate.
  - by_evaluation.
Defined.

(** Two files, two commands. *)
Lemma one_invocation_per_attempt_witness :
  exists st untouched,
    run_two never = Some (st, untouched)
    /\ length (calls st) = (ok st + failed st)%nat.
Proof.
  assert (Hs : is_Some (run_two never)) by some_by_evaluation.
  destruct Hs as [[st untouched] Hrun]. exists st, untouched. split; [exact Hrun|].
  exact (proj1 (OrchestratorMore.one_invocation_per_attempt
                  0 posix_str (gs_any 3) never always in_root out_dir "gs" "/ebook"
                  [a_pdf; b_pdf] fs_two st untouched Hrun)).
Defined.

(** The progress bar of the run over two files goes to 1, then to 2. *)
Lemma events_of_a_run_witness :
  exists st untouched,
    run_two never = Some (st, untouched)
    /\ progress_values (log_q st) = seq 1 (ok st + skipped st + failed st).
Proof.
  assert (Hs : is_Some (run_two never)) by some_by_evaluation.
  destruct Hs as [[st untouched] Hrun]. exists st, untouched. split; [exact Hrun|].
  exact (proj1 (OrchestratorMore.events_of_a_run
                  0 posix_str (gs_any 3) never always in_root out_dir "gs" "/ebook"
                  [a_pdf; b_pdf] fs_two st untouched Hrun)).
Defined.

(** The output of [a.pdf] is there and overwriting is off: skipped. *)
Lemma skipped_iff_output_exists_witness :
  exists st',
    job_a (gs_writes 3 0 "") never fs_done = Some st'
    /\ skipped st' = 1%nat.
Proof.
  assert (Hs : is_Some (job_a (gs_writes 3 0 "") never fs_done)) by some_by_evaluation.
  destruct Hs as [st' Hjob]. exists st'. split; [exact Hjob|].
  apply (OrchestratorMore.skipped_iff_output_exists
           0 posix_str (gs_writes 3 0 "") never in_root out_dir "gs" "/ebook"
           1%nat a_pdf (init fs_done) st' ["a.pdf"] eq_refl Hjob).
  split; [by_evaluation | reflexivity].
Defined.

(** With overwriting on, the run over two files skips none. *)
Lemma overwrite_never_skips_witness :
  exists st untouched,
    run_two never = Some (st, untouched) /\ skipped st = 0%nat.
Proof.
  assert (Hs : is_Some (run_two never)) by some_by_evaluation.
  destruct Hs as [[st untouched] Hrun]. exists st, untouched. split; [exact Hrun|].
  exact (proj1 (OrchestratorMore.overwrite_never_skips
                  0 posix_str (gs_any 3) never always in_root out_dir "gs" "/ebook"
                  [a_pdf; b_pdf] fs_two st untouched (fun _ => eq_refl) Hrun)).
Defined.



(** The summary of the run over two files. *)
Lemma summary_within_bounds_witness :
  exists st untouched,
    run_two never = Some (st, untouched)
    /\ 0 <= total_saved st <= total_in_bytes st.
Proof.
  assert (Hs : is_Some (run_two never)) by some_by_evaluation.
  destruct Hs as [[st untouched] Hrun]. exists st, untouched. split; [exact Hrun|].
  destruct (OrchestratorMore.summary_within_bounds
              0 posix_str (gs_any 3) never always in_root out_dir "gs" "/ebook"
              [a_pdf; b_pdf] fs_two st untouched) as (_ & _ & H & _).
  - lia.
  - exact Hrun.
  - exact H.
Defined.


(** The three paths of the job of [a.pdf]. *)
Lemma job_paths_are_distinct_witness :
  tmp_a <> out_a /\ a_pdf <> out_a /\ a_pdf <> tmp_a.
Proof.
  destruct (OrchestratorMore.job_paths_are_distinct
              in_root out_dir fs_fresh fs_fresh a_pdf a_pdf out_a out_a fs_fresh fs_fresh
              tmp_a) as (_ & H1 & _ & H2 & H3).
  - by_evaluation.
  - by_evaluation.
  - by_evaluation.
  - split; [exact H1|]. split; [apply H2 | apply H3]; discriminate.
Defined.

(** The entry names no existing path: the Ghostscript of the search is
    taken. *)
Lemma validate_gs_choice_witness :
  exists v fs',
    Validation.validate which_gs one_component resolve_self fs_fresh "in" "out" "gswin64c"
    = Some (v, fs')
    /\ Validation.v_gs v = "/usr/bin/gs".
Proof.
  assert (Hs : is_Some (Validation.validate which_gs one_component resolve_self fs_fresh
                          "in" "out" "gswin64c")) by some_by_evaluation.
  destruct Hs as [[v fs'] Hv]. exists v, fs'. split; [exact Hv|].
  destruct (StartFacts.validate_gs_choice which_gs one_component resolve_self
              fs_fresh "in" "out" "gswin64c" v fs' Hv) as [_ H].
  assert (Hf : Validation.find_ghostscript which_gs = Some (Validation.v_gs v)).
  { apply H. right. by_evaluation. }
  assert (Hg : Validation.find_ghostscript which_gs = Some "/usr/bin/gs") by by_evaluation.
  rewrite Hg in Hf. injection Hf as Hf. symmetry. exact Hf.
Defined.

(** Input and output folders differ: validation changes nothing. *)
Lemma validate_effects_witness :
  exists v fs',
    Validation.validate no_which one_component resolve_self fs_gs "in" "out" "gs"
    = Some (v, fs')
    /\ Validation.v_out_dir v = ["out"] /\ fs' = fs_gs.
Proof.
  assert (Hs : is_Some (Validation.validate no_which one_component resolve_self fs_gs
                          "in" "out" "gs")) by some_by_evaluation.
  destruct Hs as [[v fs'] Hv]. exists v, fs'. split; [exact Hv|].
  destruct (StartFacts.validate_effects no_which one_component resolve_self
              fs_gs "in" "out" "gs" v fs' Hv) as (_ & _ & H & _).
  assert (Hr : Validation.worker_in_root <$> Some v = Some ["in"]).
  { assert (H0 : (fun r => Validation.worker_in_root r.1)
                   <$> Validation.validate no_which one_component resolve_self fs_gs
                         "in" "out" "gs" = Some ["in"]) by by_evaluation.
    rewrite Hv in H0. exact H0. }
  injection Hr as Hr. apply H. rewrite Hr. discriminate.
Defined.

(** A folder with a file and a subfolder, subfolders included. *)
Lemma start_launches_well_formed_runs_witness :
  exists l fs',
    Start.start no_which one_component resolve_self false fs_gs listing_two
      "in" "out" "gs" true "Light (/ebook)" = Start.Started l fs'
    /\ Start.l_in_root l <> Start.l_out_dir l
    /\ Forall (Start.launched_file (Start.l_in_root l)) (Start.l_pdfs l).
Proof.
  assert (Hs : Start.start no_which one_component resolve_self false fs_gs listing_two
                 "in" "out" "gs" true "Light (/ebook)"
               = Start.Started
                   (Start.Launch ["in"] ["out"] "gs"
                      [["in"; "a.pdf"]; ["in"; "sub"; "b.PDF"]] "/ebook")
                   fs_gs) by by_evaluation.
  eexists _, _. split; [exact Hs|].
  destruct (StartFacts.start_launches_well_formed_runs _ _ _ _ _ _ _ _ _ _ _ _ _ Hs)
    as (_ & _ & Hr & _ & _ & Hf & _).
  split; [exact Hr | exact Hf].
Defined.

(** A single file: the worker gets it alone. *)
Lemma single_file_mode_witness :
  exists l fs',
    Start.start no_which one_component resolve_self false fs_single listing_two
      "a.pdf" "out" "gs" true "Light (/ebook)" = Start.Started l fs'
    /\ Start.l_pdfs l = [["a.pdf"]] /\ Start.l_in_root l = [].
Proof.
  assert (Hs : is_Some (match Start.start no_which one_component resolve_self false
                                fs_single listing_two "a.pdf" "out" "gs" true
                                "Light (/ebook)" with
                        | Start.Started l fs' => Some (l, fs')
                        | _ => None
                        end)) by some_by_evaluation.
  destruct (Start.start no_which one_component resolve_self false fs_single listing_two
              "a.pdf" "out" "gs" true "Light (/ebook)") as [| | | |l fs'] eqn:Hstart;
    try (destruct Hs as [x Hx]; discriminate Hx).
  exists l, fs'. split; [reflexivity|].
  destruct (StartFacts.single_file_mode _ _ _ _ _ _ _ _ _ _ _ _ _ Hstart) as (Hp & Hr & _).
  - by_evaluation.
  - split; [exact Hp | exact Hr].
Defined.

(** The listing with a subfolder has no name twice. *)
Lemma no_file_enumerated_twice_witness :
  NoDup (default [] (Enumerator.list_pdfs ["in"] listing_two true)).
Proof.
  apply EnumeratorMore.no_file_enumerated_twice.
  constructor.
  - by_decision.
  - repeat constructor. by_decision.
Defined.

(** A folder sits at the output path: the job fails, and the five bytes
    of its input are in the input total. *)
Lemma failed_promotion_counts_input_witness :
  exists st',
    job_a (gs_writes 3 0 "") always fs_blocked = Some st'
    /\ failed st' = 1%nat /\ total_in_bytes st' = 5 /\ total_out_bytes st' = 0.
Proof.
  destruct (OrchestratorMore.failed_promotion_counts_input
              0 posix_str (gs_writes 3 0 "") always in_root out_dir "gs" "/ebook"
              1%nat a_pdf (init fs_blocked) out_a fs_blocked tmp_a "" ""
              (<[tmp_a := File (bytes 3)]> fs_blocked) 5 3)
    as (st' & Hjob & Hf & _ & _ & Hin & Hout & _).
  - by_evaluation.
  - by_evaluation.
  - by_evaluation.
  - by_evaluation.
  - by_evaluation.
  - by_evaluation.
  - lia.
  - by_evaluation.
  - exists st'. split; [exact Hjob|]. split; [exact Hf|]. split; [exact Hin | exact Hout].
Defined.

End MoreRuns.
